(** * Watchdog daemon tick (src/watchdog/daemon.ts): shallow embedding

    The daemon tick of [runDaemonTick] and [executeEscalationAction], the
    registry accessors [loadSessions] / [saveSessions], and the two helpers
    imported from health.ts ([evaluateHealth], [transitionState]).

    Time is an integer number of milliseconds.  All clock reads of one tick
    ([Date.now()], [new Date()]) are taken at the single instant [now] of
    the tick.  Timestamps stored as ISO strings are kept as their
    millisecond value.  Asynchronous collaborators (liveness probe, kill,
    nudge, triage, observer) are an environment of functions; a rejected
    promise or a thrown exception is modelled as an exception of the tick
    monad below. *)

From Stdlib Require Import ZArith String List Bool Lia Sorting.Sorted.
Import ListNotations.
Open Scope Z_scope.

(** ** Data model (types.ts) *)

Inductive AgentState := booting | working | zombie | completed.

Definition AgentState_eqb (a b : AgentState) : bool :=
  match a, b with
  | booting, booting | working, working
  | zombie, zombie | completed, completed => true
  | _, _ => false
  end.

(** An in-memory session record, after [loadSessions] backfilled the
    escalation fields.  [stalledSince = None] is JSON [null]. *)
Record AgentSession := mkSession {
  agentName : string;
  tmuxSession : string;
  state : AgentState;
  lastActivity : Z;
  escalationLevel : Z;
  stalledSince : option Z
}.

(** A record as stored in sessions.json: the two escalation fields may be
    absent on records written before progressive nudging ([None] = the
    property is missing, i.e. [undefined] after [JSON.parse]). *)
Record RawSession := mkRaw {
  raw_agentName : string;
  raw_tmuxSession : string;
  raw_state : AgentState;
  raw_lastActivity : Z;
  raw_escalationLevel : option Z;
  raw_stalledSince : option (option Z)
}.

Inductive HealthAction := ActNone | ActEscalate | ActInvestigate | ActTerminate.

Record HealthCheck := mkCheck {
  hc_agentName : string;
  hc_tmuxAlive : bool;
  hc_action : HealthAction
}.

Inductive TriageVerdict := TriageRetry | TriageTerminate | TriageExtend.

(** The two nudge texts of [executeEscalationAction]. *)
Inductive NudgeMessage :=
| StallNotice (agent : string)   (* "[WATCHDOG] Agent ... appears stalled. ..." *)
| RecoveryNotice.                (* "[WATCHDOG] Triage suggests recovery is possible. ..." *)

(** Observable effects of a tick, in the order they happen. *)
Inductive Event :=
| EvProbe (tmux : string)
| EvObserve (check : HealthCheck)
| EvKill (tmux : string)
| EvNudge (root agent : string) (msg : NudgeMessage) (force : bool)
| EvTriage (agent root : string) (lastActivity : Z)
| EvSave.

(** ** Options and collaborators ([DaemonOptions]) *)

Record DaemonOptions := mkOptions {
  root : string;
  staleThresholdMs : Z;
  zombieThresholdMs : Z;
  nudgeIntervalMs : option Z;     (* default 60_000 *)
  tier1Enabled : option bool;     (* default false *)
  (** [onHealthCheck]; the function's result says whether the call throws. *)
  onHealthCheck : option (HealthCheck -> bool)
}.

(** The injected collaborators ([_tmux], [_triage], [_nudge]).  [None]
    stands for a rejected promise / thrown exception. *)
Record Env := mkEnv {
  isSessionAlive : string -> option bool;
  killThrows : string -> bool;
  nudgeThrows : string -> string -> NudgeMessage -> bool;
  triage : string -> string -> Z -> option TriageVerdict
}.

Definition MAX_ESCALATION_LEVEL : Z := 3.

(** ** The tick monad: an event trace and exceptions *)

Definition M (A : Type) : Type := list Event -> list Event * option A.

Definition ret {A} (a : A) : M A := fun tr => (tr, Some a).
Definition throw {A} : M A := fun tr => (tr, None).
Definition bind {A B} (m : M A) (k : A -> M B) : M B :=
  fun tr => match m tr with
            | (tr', Some a) => k a tr'
            | (tr', None) => (tr', None)
            end.
Definition emit (e : Event) : M unit := fun tr => (tr ++ [e], Some tt).

(** [try { m } catch { }]: the effects of [m] stay, its exception is dropped. *)
Definition try_ (m : M unit) : M unit :=
  fun tr => (fst (m tr), Some tt).

Notation "x <- m ;; k" := (bind m (fun x => k))
  (at level 61, m at next level, right associativity).
Notation "m ;;; k" := (bind m (fun _ => k))
  (at level 61, right associativity).

Section Daemon.

Variable opts : DaemonOptions.
Variable env : Env.
Variable now : Z.

Definition nudgeInterval : Z :=
  match nudgeIntervalMs opts with Some n => n | None => 60000 end.
Definition tier1 : bool :=
  match tier1Enabled opts with Some b => b | None => false end.

(** *** Collaborator calls *)

Definition probe (name : string) : M bool :=
  emit (EvProbe name) ;;;
  match isSessionAlive env name with
  | Some b => ret b
  | None => throw
  end.

Definition killSession (name : string) : M unit :=
  emit (EvKill name) ;;;
  if killThrows env name then throw else ret tt.

Definition nudge (agent : string) (msg : NudgeMessage) (force : bool) : M unit :=
  emit (EvNudge (root opts) agent msg force) ;;;
  if nudgeThrows env (root opts) agent msg then throw else ret tt.

Definition callTriage (agent : string) (lastAct : Z) : M TriageVerdict :=
  emit (EvTriage agent (root opts) lastAct) ;;;
  match triage env agent (root opts) lastAct with
  | Some v => ret v
  | None => throw
  end.

Definition observe (check : HealthCheck) : M unit :=
  match onHealthCheck opts with
  | Some f => emit (EvObserve check) ;;; if f check then throw else ret tt
  | None => ret tt
  end.


(** *** health.ts *)

(** Modelled from the spec: [evaluateHealth] of health.ts (not in the
    sources), following the policy of spec section 4.1: a zombie record is
    [investigate] when its tmux session is alive and [none] otherwise; a
    dead session of any other state is [terminate]; a live one is
    [terminate] once [zombieMs] have passed since [lastActivity],
    [escalate] once [staleMs] have passed, and [none] before. *)
Definition evaluateHealth (s : AgentSession) (tmuxAlive : bool) : HealthCheck :=
  let elapsed := now - lastActivity s in
  let action :=
    match state s with
    | zombie => if tmuxAlive then ActInvestigate else ActNone
    | _ =>
      if negb tmuxAlive then ActTerminate
      else if zombieThresholdMs opts <=? elapsed then ActTerminate
      else if staleThresholdMs opts <=? elapsed then ActEscalate
      else ActNone
    end in
  mkCheck (agentName s) tmuxAlive action.

(** Modelled from the spec: [transitionState] of health.ts (not in the
    sources), following spec section 4.2: [terminate] moves to [zombie],
    every other action holds the current state. *)
Definition transitionState (st : AgentState) (check : HealthCheck) : AgentState :=
  match hc_action check with
  | ActTerminate => zombie
  | _ => st
  end.

(** *** Record updates *)

Definition set_state (s : AgentSession) (st : AgentState) : AgentSession :=
  mkSession (agentName s) (tmuxSession s) st (lastActivity s)
            (escalationLevel s) (stalledSince s).
Definition set_escalation (s : AgentSession) (lvl : Z) (since : option Z)
  : AgentSession :=
  mkSession (agentName s) (tmuxSession s) (state s) (lastActivity s) lvl since.
Definition set_level (s : AgentSession) (lvl : Z) : AgentSession :=
  set_escalation s lvl (stalledSince s).

(** *** executeEscalationAction *)

Record ActionResult := mkResult { terminated : bool; stateChanged : bool }.

Definition executeEscalationAction (s : AgentSession) (tmuxAlive : bool)
  : M ActionResult :=
  let lvl := escalationLevel s in
  if lvl =? 0 then
    ret (mkResult false false)
  else if lvl =? 1 then
    try_ (nudge (agentName s) (StallNotice (agentName s)) true) ;;;
    ret (mkResult false false)
  else if lvl =? 2 then
    if negb tier1 then ret (mkResult false false)
    else
      verdict <- callTriage (agentName s) (lastActivity s) ;;
      match verdict with
      | TriageTerminate =>
          (if tmuxAlive then try_ (killSession (tmuxSession s)) else ret tt) ;;;
          ret (mkResult true true)
      | TriageRetry =>
          try_ (nudge (agentName s) RecoveryNotice true) ;;;
          ret (mkResult false false)
      | TriageExtend => ret (mkResult false false)
      end
  else
    (if tmuxAlive then try_ (killSession (tmuxSession s)) else ret tt) ;;;
    ret (mkResult true true).

(** *** The per-session body of the [for] loop of [runDaemonTick] *)

(** [Math.min(Math.floor(stalledMs / nudgeIntervalMs), MAX_ESCALATION_LEVEL)]
    on JS numbers.  [None] stands for the values that never compare greater
    than a level: [NaN] ([0 / 0]) and [-Infinity] (negative / 0); a positive
    stall over a zero interval is [Infinity], capped to 3.  [Z.div] is
    floor division, as [Math.floor] of the quotient. *)
Definition expectedLevel (stalledMs : Z) : option Z :=
  if nudgeInterval =? 0 then
    (if 0 <? stalledMs then Some MAX_ESCALATION_LEVEL else None)
  else Some (Z.min (stalledMs / nudgeInterval) MAX_ESCALATION_LEVEL).

(** Lines 177-191: start the stall episode if needed, then raise the
    level to the one the elapsed stall time implies.  The flag is the
    [updated] flag of the loop. *)
Definition stallPrelude (su : AgentSession * bool) : AgentSession * bool :=
  let '(s, u) := su in
  let '(s, u) :=
    match stalledSince s with
    | None => (set_escalation s 0 (Some now), true)
    | Some _ => (s, u)
    end in
  let since := match stalledSince s with Some t => t | None => now end in
  match expectedLevel (now - since) with
  | Some e => if escalationLevel s <? e then (set_level s e, true) else (s, u)
  | None => (s, u)
  end.

Definition processSession (s : AgentSession) : M (AgentSession * bool) :=
  if AgentState_eqb (state s) completed then ret (s, false)
  else
    tmuxAlive <- probe (tmuxSession s) ;;
    let check := evaluateHealth s tmuxAlive in
    let newState := transitionState (state s) check in
    let '(s, u) :=
      if AgentState_eqb newState (state s) then (s, false)
      else (set_state s newState, true) in
    observe check ;;;
    match hc_action check with
    | ActTerminate =>
        (if tmuxAlive then try_ (killSession (tmuxSession s)) else ret tt) ;;;
        ret (set_escalation (set_state s zombie) 0 None, true)
    | ActInvestigate => ret (s, u)
    | ActEscalate =>
        let '(s, u) := stallPrelude (s, u) in
        r <- executeEscalationAction s tmuxAlive ;;
        if terminated r then
          ret (set_escalation (set_state s zombie) 0 None, true)
        else if stateChanged r then ret (s, true)
        else ret (s, u)
    | ActNone =>
        match stalledSince s with
        | Some _ => ret (set_escalation s 0 None, true)
        | None => ret (s, u)
        end
    end.

Fixpoint processAll (ss : list AgentSession) : M (list AgentSession * bool) :=
  match ss with
  | [] => ret ([], false)
  | s :: rest =>
      r <- processSession s ;;
      r' <- processAll rest ;;
      ret (fst r :: fst r', snd r || snd r')
  end.

End Daemon.

(** *** loadSessions / saveSessions *)

(** The backfill loop of [loadSessions]: a missing [escalationLevel]
    becomes 0, a missing [stalledSince] becomes [null].  (The file is taken
    to exist and to hold a JSON array: the other branches return [[]].) *)
Definition backfill (r : RawSession) : AgentSession :=
  mkSession (raw_agentName r) (raw_tmuxSession r) (raw_state r)
    (raw_lastActivity r)
    (match raw_escalationLevel r with Some l => l | None => 0 end)
    (match raw_stalledSince r with Some t => t | None => None end).

Definition loadSessions (disk : list RawSession) : list AgentSession :=
  map backfill disk.

(** [JSON.stringify] of an in-memory record: every field is present. *)
Definition toRaw (s : AgentSession) : RawSession :=
  mkRaw (agentName s) (tmuxSession s) (state s) (lastActivity s)
    (Some (escalationLevel s)) (Some (stalledSince s)).

Definition saveSessions (ss : list AgentSession) : list RawSession :=
  map toRaw ss.

(** *** runDaemonTick *)

(** One tick over the registry [disk].  The result is the event trace,
    whether the tick completed ([true]) or its promise rejected ([false]),
    and the registry file afterwards. *)
Record TickResult := mkTick {
  tick_trace : list Event;
  tick_completed : bool;
  tick_disk : list RawSession
}.

Definition runDaemonTick (opts : DaemonOptions) (env : Env) (now : Z)
  (disk : list RawSession) : TickResult :=
  let sessions := loadSessions disk in
  match processAll opts env now sessions [] with
  | (tr, Some (ss, updated)) =>
      if updated then mkTick (tr ++ [EvSave]) true (saveSessions ss)
      else mkTick tr true disk
  | (tr, None) => mkTick tr false disk
  end.

Definition wrote (r : TickResult) : bool :=
  existsb (fun e => match e with EvSave => true | _ => false end) (tick_trace r).

(** Number of registry writes performed by a tick. *)
Definition saveCount (r : TickResult) : nat :=
  length (filter (fun e => match e with EvSave => true | _ => false end) (tick_trace r)).

(** *** A stall episode observed across ticks *)

(** The record after the raise step (lines 177-191) of consecutive ticks at
    the instants [ts], for a session whose verdict is [escalate] at each of
    them and which is not terminated in between: the escalation level and
    [stalledSince] right after each raise step. *)
Fixpoint stallLevels (opts : DaemonOptions) (r : AgentSession) (ts : list Z)
  : list (Z * option Z) :=
  match ts with
  | [] => []
  | t :: ts' =>
      let r' := fst (stallPrelude opts t (r, false)) in
      (escalationLevel r', stalledSince r') :: stallLevels opts r' ts'
  end.

(** The events of a trace that are observer calls. *)
Definition observed (tr : list Event) : list HealthCheck :=
  flat_map (fun e => match e with EvObserve c => [c] | _ => [] end) tr.

Definition notCompleted (s : AgentSession) : bool :=
  negb (AgentState_eqb (state s) completed).

(** What the observer call contributes to the trace, and whether it throws. *)
Definition observerEvents (opts : DaemonOptions) (check : HealthCheck) : list Event :=
  match onHealthCheck opts with Some _ => [EvObserve check] | None => [] end.
Definition observerThrows (opts : DaemonOptions) (check : HealthCheck) : bool :=
  match onHealthCheck opts with Some f => f check | None => false end.

(** The record a termination leaves: [zombie], escalation fields cleared. *)
Definition terminatedRecord (s : AgentSession) : AgentSession :=
  mkSession (agentName s) (tmuxSession s) zombie (lastActivity s) 0 None.

(** The coupling of the escalation fields the code maintains: no stall
    episode means level 0. *)
Definition escInv (s : AgentSession) : Prop :=
  stalledSince s = None -> escalationLevel s = 0.

(** The liveness answer the probe gives for a session's tmux session. *)
Definition aliveOf (env : Env) (s : AgentSession) : bool :=
  match isSessionAlive env (tmuxSession s) with Some b => b | None => false end.

(** *** The registry file ([loadSessions], lines 345-371) *)

(** What [Bun.file(sessionsPath)] holds: no file, text that [JSON.parse]
    rejects, a JSON value that is not an array, or an array of records. *)
Inductive RegistryFile :=
| FileMissing
| FileUnparsable
| FileNotArray
| FileArray (recs : list RawSession).

(** [loadSessions] on the file; [None] is the exception [JSON.parse]
    throws. *)
Definition loadSessionsFile (f : RegistryFile) : option (list AgentSession) :=
  match f with
  | FileMissing => Some []
  | FileUnparsable => None
  | FileNotArray => Some []
  | FileArray recs => Some (loadSessions recs)
  end.

(** [saveSessions]: [Bun.write] of the JSON array of the records. *)
Definition saveSessionsFile (ss : list AgentSession) : RegistryFile :=
  FileArray (saveSessions ss).

Record TickFileResult := mkTickFile {
  tickf_trace : list Event;
  tickf_completed : bool;
  tickf_file : RegistryFile
}.

(** [runDaemonTick] with the registry file as it is on disk: the load at
    line 128 may throw before the loop. *)
Definition runDaemonTickFile (opts : DaemonOptions) (env : Env) (now : Z)
  (file : RegistryFile) : TickFileResult :=
  match loadSessionsFile file with
  | None => mkTickFile [] false file
  | Some sessions =>
      match processAll opts env now sessions [] with
      | (tr, Some (ss, updated)) =>
          if updated then mkTickFile (tr ++ [EvSave]) true (saveSessionsFile ss)
          else mkTickFile tr true file
      | (tr, None) => mkTickFile tr false file
      end
  end.

(** The collaborators of [env] with kill and nudge failing as [kt] and
    [nt] say. *)
Definition withFailures (env : Env) (kt : string -> bool)
  (nt : string -> string -> NudgeMessage -> bool) : Env :=
  mkEnv (isSessionAlive env) kt nt (triage env).

(** *** Collaborator calls seen in a trace *)

(** What an event of the processing of session [s] may be: every call is
    made for a non-[completed] session and about that session; a kill only
    for a tmux session the probe reported alive; a nudge to the project
    root, forced, with one of the two texts (the recovery text only after a
    triage call); a triage call only with triage enabled. *)
Definition sessionEvent (opts : DaemonOptions) (env : Env) (s : AgentSession)
  (e : Event) : Prop :=
  notCompleted s = true /\
  match e with
  | EvProbe x => x = tmuxSession s
  | EvObserve _ => True
  | EvKill x => x = tmuxSession s /\ isSessionAlive env x = Some true
  | EvNudge r a m f =>
      r = root opts /\ a = agentName s /\ f = true /\
      (m = StallNotice a \/ (m = RecoveryNotice /\ tier1 opts = true))
  | EvTriage a r la =>
      a = agentName s /\ r = root opts /\ la = lastActivity s /\ tier1 opts = true
  | EvSave => False
  end.

(** The liveness probes, kills and nudges of a trace. *)
Definition probes (tr : list Event) : list string :=
  flat_map (fun e => match e with EvProbe x => [x] | _ => [] end) tr.
Definition kills (tr : list Event) : list string :=
  flat_map (fun e => match e with EvKill x => [x] | _ => [] end) tr.
Definition nudges (tr : list Event) : list string :=
  flat_map (fun e => match e with EvNudge _ a _ _ => [a] | _ => [] end) tr.

(** How a processed record relates to the loaded one. *)
Definition recordStep (now : Z) (s s1 : AgentSession) : Prop :=
  agentName s1 = agentName s /\ tmuxSession s1 = tmuxSession s /\
  lastActivity s1 = lastActivity s /\
  (state s = completed -> s1 = s) /\
  (stalledSince s1 = stalledSince s \/ stalledSince s1 = None \/
   stalledSince s1 = Some now) /\
  (0 <= escalationLevel s <= 3 -> 0 <= escalationLevel s1 <= 3).

(** ** Concrete inputs used by the witnesses and counterexamples *)

Open Scope string_scope.

(** Every tmux session alive, no collaborator fails, triage says [extend]. *)
Definition env_alive : Env :=
  mkEnv (fun _ => Some true) (fun _ => false) (fun _ _ _ => false)
        (fun _ _ _ => Some TriageExtend).

(** Every tmux session alive; the triage call throws. *)
Definition env_triage_throws : Env :=
  mkEnv (fun _ => Some true) (fun _ => false) (fun _ _ _ => false)
        (fun _ _ _ => None).

(** Spec scenario thresholds: staleMs = 60s, zombieMs = 600s, default
    nudge interval, an observer that returns normally. *)
Definition opts_scenario : DaemonOptions :=
  mkOptions "/repo" 60000 600000 None None (Some (fun _ => false)).

(** The same with an observer that throws on every call. *)
Definition opts_throwing_observer : DaemonOptions :=
  mkOptions "/repo" 60000 600000 None None (Some (fun _ => true)).

(** Triage enabled, no observer. *)
Definition opts_tier1 : DaemonOptions :=
  mkOptions "/repo" 60000 600000 None (Some true) None.

Definition t_now : Z := 1000000.

(** Scenario A: a working session silent for 90s, not yet stalled. *)
Definition sess_scenarioA : AgentSession :=
  mkSession "builder-1" "overstory-builder-1" working (t_now - 90000) 0 None.

(** A session stalled for 120s (so at level 2), silent for 100s. *)
Definition sess_level2 : AgentSession :=
  mkSession "builder-1" "overstory-builder-1" working (t_now - 100000) 2
            (Some (t_now - 120000)).

(** A working session whose last activity is far beyond zombieMs. *)
Definition sess_silent : AgentSession :=
  mkSession "builder-2" "overstory-builder-2" working 0 0 None.

(** A completed session. *)
Definition sess_done : AgentSession :=
  mkSession "lead-1" "overstory-lead-1" completed 0 0 None.

(** Every tmux session alive; triage says [terminate]. *)
Definition env_triage_terminate : Env :=
  mkEnv (fun _ => Some true) (fun _ => false) (fun _ _ _ => false)
        (fun _ _ _ => Some TriageTerminate).

(** A session stalled for 60s (so at level 1), silent for 90s. *)
Definition sess_level1 : AgentSession :=
  mkSession "builder-3" "overstory-builder-3" working (t_now - 90000) 1
            (Some (t_now - 60000)).

(** A record whose stored escalation level is negative. *)
Definition sess_negative : AgentSession :=
  mkSession "builder-4" "overstory-builder-4" working (t_now - 90000) (-1)%Z
            (Some t_now).

(** A record written before progressive nudging: no escalation fields. *)
Definition raw_legacy : RawSession :=
  mkRaw "scout-1" "overstory-scout-1" working (t_now - 1000) None None.

Close Scope string_scope.

(** ** Trace framing of the tick monad *)

(** No event of the per-session loop is a registry write. *)
Definition notSave (e : Event) : Prop :=
  match e with EvSave => False | _ => True end.

(** Events that are neither a registry write nor an observer call. *)
Definition quiet (e : Event) : Prop :=
  match e with EvSave | EvObserve _ => False | _ => True end.

(** [m] appends to the trace it is run on, what it appends and returns does
    not depend on that trace, and every event it appends satisfies [P]. *)
Definition framedP {A} (P : Event -> Prop) (m : M A) : Prop :=
  Forall P (fst (m [])) /\
  forall tr, m tr = (tr ++ fst (m []), snd (m [])).

Abbreviation framed := (framedP notSave).

Section Framing.

Variable P : Event -> Prop.

Lemma framed_ret {A} (a : A) : framedP P (ret a).
Proof. split; [constructor | intro tr; unfold ret; rewrite app_nil_r; reflexivity]. Qed.

Lemma framed_throw {A} : framedP P (@throw A).
Proof. split; [constructor | intro tr; unfold throw; rewrite app_nil_r; reflexivity]. Qed.

Lemma framed_emit e : P e -> framedP P (emit e).
Proof. intros He; split; [repeat constructor; exact He | reflexivity]. Qed.

Lemma framed_bind {A B} (m : M A) (k : A -> M B) :
  framedP P m -> (forall a, framedP P (k a)) -> framedP P (bind m k).
Proof.
  intros [Hs Hm] Hk. unfold framedP, bind.
  destruct (m (@nil Event)) as [l [a|]] eqn:E; simpl in *; split.
  - destruct (Hk a) as [Hka Hka']. rewrite (Hka' l). simpl.
    apply Forall_app; split; assumption.
  - intro tr. rewrite Hm. simpl. destruct (Hk a) as [_ Hka'].
    rewrite (Hka' (tr ++ l)), (Hka' l). simpl. rewrite app_assoc. reflexivity.
  - exact Hs.
  - intro tr. rewrite Hm. reflexivity.
Qed.

Lemma framed_try (m : M unit) : framedP P m -> framedP P (try_ m).
Proof.
  intros [Hs Hm]. split; [exact Hs |].
  intro tr. unfold try_. rewrite Hm. reflexivity.
Qed.

End Framing.

Lemma bind_some {A B} (m : M A) (k : A -> M B) tr tr' a :
  m tr = (tr', Some a) -> bind m k tr = k a tr'.
Proof. intros H. unfold bind. rewrite H. reflexivity. Qed.

Lemma bind_none {A B} (m : M A) (k : A -> M B) tr tr' :
  m tr = (tr', None) -> bind m k tr = (tr', None).
Proof. intros H. unfold bind. rewrite H. reflexivity. Qed.

Lemma probe_alive env name alive tr :
  isSessionAlive env name = Some alive ->
  probe env name tr = (tr ++ [EvProbe name], Some alive).
Proof. intros H. unfold probe, bind, emit. rewrite H. reflexivity. Qed.

Lemma observe_run opts check tr :
  observe opts check tr =
    (tr ++ observerEvents opts check,
     if observerThrows opts check then None else Some tt).
Proof.
  unfold observe, observerEvents, observerThrows.
  destruct (onHealthCheck opts) as [f|]; [| rewrite app_nil_r; reflexivity].
  unfold bind, emit. destruct (f check); reflexivity.
Qed.

Lemma kill_if_alive env (alive : bool) name tr :
  (if alive then try_ (killSession env name) else ret tt) tr =
    (tr ++ (if alive then [EvKill name] else []), Some tt).
Proof.
  destruct alive; unfold try_, killSession, bind, emit, ret.
  - destruct (killThrows env name); reflexivity.
  - rewrite app_nil_r. reflexivity.
Qed.

Lemma AgentState_eqb_refl st : AgentState_eqb st st = true.
Proof. destruct st; reflexivity. Qed.

Lemma AgentState_eqb_true a b : AgentState_eqb a b = true -> a = b.
Proof. destruct a, b; simpl; congruence. Qed.

Lemma not_completed_eqb st : st <> completed -> AgentState_eqb st completed = false.
Proof. destruct st; try reflexivity. intros H; contradiction H; reflexivity. Qed.

(** The raise step touches only the two escalation fields. *)
Lemma stallPrelude_fields opts now s u :
  let s' := fst (stallPrelude opts now (s, u)) in
  agentName s' = agentName s /\ tmuxSession s' = tmuxSession s /\
  state s' = state s /\ lastActivity s' = lastActivity s.
Proof.
  cbv zeta. unfold stallPrelude.
  destruct s as [n t st la lvl [since|]]; simpl;
  repeat match goal with
         | |- context [match ?x with _ => _ end] => destruct x
         | |- context [if ?b then _ else _] => destruct b
         end; repeat split.
Qed.

Lemma stallPrelude_since opts now s u :
  stalledSince (fst (stallPrelude opts now (s, u))) <> None.
Proof.
  unfold stallPrelude.
  destruct s as [n t st la lvl [since|]]; simpl;
  repeat match goal with
         | |- context [match ?x with _ => _ end] => destruct x
         | |- context [if ?b then _ else _] => destruct b
         end; simpl; discriminate.
Qed.

Lemma terminatedRecord_stallPrelude opts now s u :
  terminatedRecord (fst (stallPrelude opts now (s, u))) = terminatedRecord s.
Proof.
  destruct (stallPrelude_fields opts now s u) as (H1 & H2 & _ & H4).
  unfold terminatedRecord. rewrite H1, H2, H4. reflexivity.
Qed.

Lemma exec_level3 opts env s alive tr :
  MAX_ESCALATION_LEVEL <= escalationLevel s ->
  executeEscalationAction opts env s alive tr =
    (tr ++ (if alive then [EvKill (tmuxSession s)] else []),
     Some (mkResult true true)).
Proof.
  unfold MAX_ESCALATION_LEVEL. intros H. unfold executeEscalationAction.
  replace (escalationLevel s =? 0) with false by lia.
  replace (escalationLevel s =? 1) with false by lia.
  replace (escalationLevel s =? 2) with false by lia.
  rewrite (bind_some _ _ _ _ _ (kill_if_alive _ _ _ _)). reflexivity.
Qed.

Lemma exec_level2_terminate opts env s alive tr :
  escalationLevel s = 2 -> tier1 opts = true ->
  triage env (agentName s) (root opts) (lastActivity s) = Some TriageTerminate ->
  executeEscalationAction opts env s alive tr =
    (tr ++ [EvTriage (agentName s) (root opts) (lastActivity s)]
        ++ (if alive then [EvKill (tmuxSession s)] else []),
     Some (mkResult true true)).
Proof.
  intros H2 Ht Htr. unfold executeEscalationAction. rewrite H2, Ht. simpl.
  unfold callTriage, bind at 2, bind at 2, emit. rewrite Htr.
  unfold ret at 1, bind at 1.
  rewrite (bind_some _ _ _ _ _ (kill_if_alive _ _ _ _)).
  rewrite <- app_assoc. reflexivity.
Qed.

(** Unfold one session's processing in hypothesis [H] and split on every
    decision it takes. *)
Ltac unfold_session H :=
  unfold processSession, executeEscalationAction,
    probe, observe, killSession, nudge, callTriage, try_, bind, emit, ret,
    throw, evaluateHealth, transitionState in H;
  let SP := fresh "SP" in
  let HSP := fresh "HSP" in
  match type of H with
  | context [stallPrelude ?o ?n] => remember (stallPrelude o n) as SP eqn:HSP
  end;
  repeat (simpl in H;
          match type of H with
          | context [match ?x with _ => _ end] => destruct x eqn:?
          end);
  simpl in H.

Ltac framed_tac :=
  repeat match goal with
  | |- framedP _ (bind _ _) => apply framed_bind; [ | intros ]
  | |- framedP _ (ret _) => apply framed_ret
  | |- framedP _ throw => apply framed_throw
  | |- framedP _ (emit _) => apply framed_emit; exact I
  | |- framedP _ (try_ _) => apply framed_try
  | |- framedP _ (probe _ _) => unfold probe
  | |- framedP _ (killSession _ _) => unfold killSession
  | |- framedP _ (nudge _ _ _ _ _) => unfold nudge
  | |- framedP _ (callTriage _ _ _ _) => unfold callTriage
  | |- framedP _ (observe _ _) => unfold observe
  | |- framedP _ (let '(_, _) := ?x in _) => destruct x
  | |- framedP _ (match ?x with _ => _ end) => destruct x
  | |- framedP _ (if ?b then _ else _) => destruct b
  end.

Lemma framed_exec opts env s a : framed (executeEscalationAction opts env s a).
Proof. unfold executeEscalationAction. framed_tac. Qed.

Lemma quiet_exec opts env s a :
  framedP quiet (executeEscalationAction opts env s a).
Proof. unfold executeEscalationAction. framed_tac. Qed.

Lemma framed_processSession opts env now s :
  framed (processSession opts env now s).
Proof.
  unfold processSession. cbv zeta. framed_tac. apply framed_exec.
Qed.

Lemma framed_processAll opts env now ss : framed (processAll opts env now ss).
Proof.
  induction ss as [|s ss IH]; simpl; framed_tac.
  - apply framed_processSession.
  - exact IH.
Qed.

(** ** Completed sessions are skipped *)

(** C8: a tick skips a [completed] session entirely: no liveness probe, no
    observer call, no event at all, and the record comes back unchanged
    without setting the [updated] flag. *)
Theorem completed_session_untouched opts env now s tr :
  state s = completed ->
  processSession opts env now s tr = (tr, Some (s, false)).
Proof.
  intros Hc. unfold processSession. rewrite Hc. reflexivity.
Qed.

(** ** The [terminate] verdict *)

(** C4: a session whose verdict is [terminate] has its tmux session killed
    exactly when the probe said alive; the kill's failure is swallowed (the
    outcome does not depend on [killThrows]); the record becomes [zombie]
    with [escalationLevel = 0] and [stalledSince = null].  Only a throwing
    observer, called before the branch, stops the session's processing. *)
Theorem terminate_verdict_outcome opts env now s alive tr :
  state s <> completed ->
  isSessionAlive env (tmuxSession s) = Some alive ->
  hc_action (evaluateHealth opts now s alive) = ActTerminate ->
  processSession opts env now s tr =
    let check := evaluateHealth opts now s alive in
    let pre := tr ++ [EvProbe (tmuxSession s)] ++ observerEvents opts check in
    if observerThrows opts check then (pre, None)
    else (pre ++ (if alive then [EvKill (tmuxSession s)] else []),
          Some (terminatedRecord s, true)).
Proof.
  intros Hc Halive Hact. cbv zeta.
  unfold processSession.
  replace (AgentState_eqb (state s) completed) with false
    by (destruct (state s); reflexivity || contradiction Hc; reflexivity).
  rewrite (bind_some _ _ _ _ _ (probe_alive _ _ _ tr Halive)). cbv beta zeta.
  unfold transitionState at 1. rewrite Hact.
  destruct (AgentState_eqb zombie (state s));
  (unfold bind at 1; rewrite observe_run;
   destruct (observerThrows opts (evaluateHealth opts now s alive));
   [ rewrite app_assoc; reflexivity
   | rewrite (bind_some _ _ _ _ _ (kill_if_alive _ _ _ _));
     rewrite <- !app_assoc; reflexivity ]).
Qed.

(** ** The [escalate] verdict at a terminating level *)

(** C5: under an [escalate] verdict, when the level after the raise step is
    3 or more, or is 2 with triage enabled and a [terminate] triage verdict,
    the tmux session is killed exactly when the probe said alive (a kill
    failure is swallowed) and the record becomes [zombie] with
    [escalationLevel = 0] and [stalledSince = null].  As for [terminate],
    only a throwing observer stops the processing before. *)
Theorem escalate_terminal_level_outcome opts env now s alive tr :
  state s <> completed ->
  isSessionAlive env (tmuxSession s) = Some alive ->
  hc_action (evaluateHealth opts now s alive) = ActEscalate ->
  let lvl := escalationLevel (fst (stallPrelude opts now (s, false))) in
  (MAX_ESCALATION_LEVEL <= lvl \/
   (lvl = 2 /\ tier1 opts = true /\
    triage env (agentName s) (root opts) (lastActivity s) = Some TriageTerminate)) ->
  processSession opts env now s tr =
    let check := evaluateHealth opts now s alive in
    let pre := tr ++ [EvProbe (tmuxSession s)] ++ observerEvents opts check in
    if observerThrows opts check then (pre, None)
    else (pre ++ (if lvl =? 2
                  then [EvTriage (agentName s) (root opts) (lastActivity s)]
                  else [])
              ++ (if alive then [EvKill (tmuxSession s)] else []),
          Some (terminatedRecord s, true)).
Proof.
  intros Hc Halive Hact. cbv zeta. intros Hlvl.
  unfold processSession. rewrite (not_completed_eqb _ Hc).
  rewrite (bind_some _ _ _ _ _ (probe_alive _ _ _ tr Halive)). cbv beta zeta.
  unfold transitionState at 1. rewrite Hact, AgentState_eqb_refl.
  unfold bind at 1; rewrite observe_run.
  destruct (observerThrows opts (evaluateHealth opts now s alive));
    [ rewrite app_assoc; reflexivity | ].
  pose proof (terminatedRecord_stallPrelude opts now s false) as Htr.
  pose proof (stallPrelude_fields opts now s false) as (Hn & Ht & _ & Hl).
  destruct (stallPrelude opts now (s, false)) as [s' u] eqn:Hp; simpl in *.
  destruct Hlvl as [H3 | (H2 & Hon & Htri)].
  - rewrite (bind_some _ _ _ _ _ (exec_level3 opts env s' alive _ H3)).
    replace (escalationLevel s' =? 2) with false
      by (unfold MAX_ESCALATION_LEVEL in H3; lia).
    simpl. rewrite <- Htr, <- Ht, <- !app_assoc. reflexivity.
  - rewrite <- Hn, <- Hl in Htri.
    rewrite (bind_some _ _ _ _ _ (exec_level2_terminate opts env s' alive _ H2 Hon Htri)).
    rewrite H2. simpl. rewrite <- Htr, <- Ht, <- Hn, <- Hl, <- !app_assoc. reflexivity.
Qed.

Lemma processSession_escInv opts env now s tr s' u :
  escInv s -> snd (processSession opts env now s tr) = Some (s', u) -> escInv s'.
Proof.
  intros Hinv H. unfold_session H.
  all: try discriminate H.
  all: injection H as <- <-; unfold escInv in *; simpl in *; auto; try discriminate.
  all: repeat match goal with
              | Hx : (if ?c then _ else _) = (_, _) |- _ =>
                  destruct c; injection Hx as <- <-
              end; simpl in *; auto.
  all: match goal with
       | Hx : ?SP (?s, ?u) = (?a, _), HSP : ?SP = stallPrelude ?o ?n |- _ =>
           pose proof (stallPrelude_since o n s u) as Hs; rewrite <- HSP, Hx in Hs;
           simpl in Hs; intros; contradiction
       end.
Qed.

Lemma backfill_toRaw s : backfill (toRaw s) = s.
Proof. destruct s; reflexivity. Qed.

Lemma load_save ss : loadSessions (saveSessions ss) = ss.
Proof.
  unfold loadSessions, saveSessions. rewrite map_map.
  erewrite map_ext by apply backfill_toRaw. apply map_id.
Qed.

Lemma processAll_cons opts env now s rest tr :
  processAll opts env now (s :: rest) tr =
    match processSession opts env now s tr with
    | (l, Some (s1, u1)) =>
        match processAll opts env now rest l with
        | (l', Some (ss1, u2)) => (l', Some (s1 :: ss1, u1 || u2))
        | (l', None) => (l', None)
        end
    | (l, None) => (l, None)
    end.
Proof.
  simpl. unfold bind at 1.
  destruct (processSession opts env now s tr) as [l [[s1 u1]|]]; [| reflexivity].
  unfold bind. destruct (processAll opts env now rest l) as [l' [[ss1 u2]|]];
  reflexivity.
Qed.

Lemma processAll_escInv opts env now ss tr ss' u :
  Forall escInv ss -> snd (processAll opts env now ss tr) = Some (ss', u) ->
  Forall escInv ss'.
Proof.
  revert tr ss' u. induction ss as [|s rest IH]; intros tr ss' u Hall H.
  - simpl in H. injection H as <- _. constructor.
  - rewrite processAll_cons in H. inversion Hall as [|? ? Hs Hrest]; subst.
    destruct (processSession opts env now s tr) as [l [[s1 u1]|]] eqn:E;
      [| discriminate H].
    destruct (processAll opts env now rest l) as [l' [[ss1 u2]|]] eqn:E';
      [| discriminate H].
    simpl in H. injection H as <- _. constructor.
    + apply (processSession_escInv opts env now s tr s1 u1 Hs). rewrite E. reflexivity.
    + apply (IH l ss1 u2 Hrest). rewrite E'. reflexivity.
Qed.

(** ** The coupling of [escalationLevel] and [stalledSince] *)

(** C3 (as corrected): every tick keeps "[stalledSince = null] implies
    [escalationLevel = 0]" on every record of the registry, when the
    records it loads satisfy it.  The converse is not kept: see
    [escalation_coupling_converse_fails]. *)
Theorem tick_preserves_escalation_coupling opts env now disk :
  Forall (fun r => escInv (backfill r)) disk ->
  Forall (fun r => escInv (backfill r)) (tick_disk (runDaemonTick opts env now disk)).
Proof.
  intros Hdisk. unfold runDaemonTick. cbv zeta.
  destruct (processAll _ _ _ _ _) as [tr [[ss upd]|]] eqn:E;
    [| exact Hdisk].
  destruct upd; [| exact Hdisk]. simpl.
  unfold saveSessions. apply Forall_map.
  eapply Forall_impl;
    [| apply (processAll_escInv opts env now (loadSessions disk) [] ss true)].
  - intros s Hs. rewrite backfill_toRaw. exact Hs.
  - unfold loadSessions. apply Forall_map. exact Hdisk.
  - rewrite E. reflexivity.
Qed.

(** C3 counterexample: spec scenario A.  A working session silent for 90s
    (staleMs = 60s) enters a stall episode: after the tick its stored record
    has [stalledSince] set and [escalationLevel = 0]. *)
Lemma escalation_coupling_converse_fails :
  ~ Forall (fun r => escalationLevel (backfill r) = 0 <-> stalledSince (backfill r) = None)
      (tick_disk (runDaemonTick opts_scenario env_alive t_now [toRaw sess_scenarioA])).
Proof.
  vm_compute. intros H. apply Forall_inv in H. destruct H as [H _].
  discriminate (H eq_refl).
Qed.

(** ** Escalation level over a stall episode *)

Section Episode.

Variable opts : DaemonOptions.
Hypothesis Hpos : 0 < nudgeInterval opts.

(** The level the elapsed stall time implies. *)
Let target (s0 t : Z) : Z :=
  Z.min ((t - s0) / nudgeInterval opts) MAX_ESCALATION_LEVEL.

Lemma target_mono s0 t t' : t <= t' -> target s0 t <= target s0 t'.
Proof.
  intros H. unfold target. apply Z.min_le_compat_r.
  apply Z.div_le_mono; lia.
Qed.

Lemma expectedLevel_pos now s0 :
  expectedLevel opts (now - s0) = Some (target s0 now).
Proof.
  unfold expectedLevel. replace (nudgeInterval opts =? 0) with false by lia.
  reflexivity.
Qed.

Lemma stallPrelude_running r s0 t u :
  stalledSince r = Some s0 ->
  stallPrelude opts t (r, u) =
    if escalationLevel r <? target s0 t then (set_level r (target s0 t), true)
    else (r, u).
Proof.
  intros Hs. destruct r as [n tm st la lvl since]; simpl in Hs; subst since.
  unfold stallPrelude; simpl. rewrite expectedLevel_pos. reflexivity.
Qed.

Lemma stallPrelude_start r t u :
  stalledSince r = None ->
  stallPrelude opts t (r, u) = (set_escalation r 0 (Some t), true).
Proof.
  intros Hs. destruct r as [n tm st la lvl since]; simpl in Hs; subst since.
  unfold stallPrelude; simpl. rewrite (expectedLevel_pos t t).
  replace (target t t) with 0; [reflexivity |].
  unfold target. rewrite Z.sub_diag, Z.div_0_l by lia. reflexivity.
Qed.

Lemma stallLevels_running r s0 ts :
  stalledSince r = Some s0 ->
  Forall (fun t => escalationLevel r <= target s0 t) ts ->
  StronglySorted Z.le ts ->
  stallLevels opts r ts = map (fun t => (target s0 t, Some s0)) ts.
Proof.
  revert r. induction ts as [|t ts IH]; intros r Hs Hle Hsort; [reflexivity |].
  cbn [stallLevels]. inversion Hle as [|? ? Ht Hrest]; subst.
  inversion Hsort as [|? ? Hsort' Hfirst]; subst.
  rewrite (stallPrelude_running r s0 t false Hs).
  destruct (escalationLevel r <? target s0 t) eqn:Hlt; simpl;
    [ | apply Z.ltb_ge in Hlt ];
    (f_equal; [ rewrite Hs; f_equal; try lia | ]);
    (apply IH; [ exact Hs | | exact Hsort' ]);
    (eapply Forall_impl; [| exact Hfirst]); intros t' Htt';
    [ | eapply Z.le_trans; [ exact Ht | ] ];
    apply target_mono; exact Htt'.
Qed.

End Episode.

(** C2: over a stall episode that starts at the tick at [t0] (the session
    was not stalled before, so [stalledSince := t0]) and goes on at ticks
    [t0 <= t1 <= ... <= tn], each one with an [escalate] verdict and no
    termination, the level right after the raise step of the tick at [t] is
    [min(floor((t - t0) / nudgeIntervalMs), 3)], and [stalledSince] stays
    [t0]: the level depends on the elapsed stall time only, not on how
    many ticks ran, and it is non-decreasing in that time. *)
Theorem escalation_level_tracks_elapsed_time opts r t0 ts :
  0 < nudgeInterval opts ->
  stalledSince r = None ->
  Sorted Z.le (t0 :: ts) ->
  stallLevels opts r (t0 :: ts) =
    map (fun t => (Z.min ((t - t0) / nudgeInterval opts) MAX_ESCALATION_LEVEL,
                   Some t0)) (t0 :: ts)
  /\ (forall t t', t <= t' ->
        Z.min ((t - t0) / nudgeInterval opts) MAX_ESCALATION_LEVEL <=
        Z.min ((t' - t0) / nudgeInterval opts) MAX_ESCALATION_LEVEL).
Proof.
  intros Hpos Hs Hsort. split; [| intros t t'; apply (target_mono opts Hpos)].
  cbn [stallLevels]. rewrite (stallPrelude_start opts Hpos r t0 false Hs).
  simpl. rewrite Z.sub_diag, Z.div_0_l by lia. f_equal.
  apply Sorted_StronglySorted in Hsort; [| intros ? ? ?; lia].
  inversion Hsort as [|? ? Hsort' Hfirst]; subst.
  apply (stallLevels_running opts Hpos); [reflexivity | | exact Hsort'].
  eapply Forall_impl; [| exact Hfirst]. intros t Ht. simpl.
  apply Z.min_glb; [apply Z.div_pos; lia | unfold MAX_ESCALATION_LEVEL; lia].
Qed.

(** ** Registry writes *)

Lemma existsb_notSave l :
  Forall notSave l ->
  existsb (fun e => match e with EvSave => true | _ => false end) l = false.
Proof.
  induction 1 as [|e l He _ IH]; [reflexivity |].
  simpl. rewrite IH. destruct e; simpl in *; tauto.
Qed.

Lemma processAll_no_save opts env now ss :
  Forall notSave (fst (processAll opts env now ss [])).
Proof. apply framed_processAll. Qed.

(** C9: when an exception escapes the per-session loop (a throwing observer,
    a rejected probe, a throwing triage call), the tick writes nothing:
    the registry file is exactly what it was, so every change made to the
    in-memory records earlier in the tick is lost. *)
Theorem tick_exception_discards_mutations opts env now disk :
  tick_completed (runDaemonTick opts env now disk) = false ->
  tick_disk (runDaemonTick opts env now disk) = disk /\
  wrote (runDaemonTick opts env now disk) = false.
Proof.
  pose proof (processAll_no_save opts env now (loadSessions disk)) as Hns.
  unfold runDaemonTick, wrote. cbv zeta.
  destruct (processAll opts env now (loadSessions disk) []) as [tr [[ss [|]]|]];
    simpl; intros H; try discriminate H.
  split; [reflexivity |]. apply existsb_notSave. exact Hns.
Qed.

(** C10: the backfill of [loadSessions] is invisible to the write decision:
    a tick writes the registry exactly when it would on the same registry
    with every escalation field already present; and a tick that writes
    nothing leaves the file as it was, legacy records included. *)
Theorem legacy_backfill_no_write opts env now disk :
  wrote (runDaemonTick opts env now disk) =
    wrote (runDaemonTick opts env now (saveSessions (loadSessions disk))) /\
  (wrote (runDaemonTick opts env now disk) = false ->
   tick_disk (runDaemonTick opts env now disk) = disk).
Proof.
  pose proof (processAll_no_save opts env now (loadSessions disk)) as Hns.
  unfold runDaemonTick, wrote. cbv zeta. rewrite load_save.
  destruct (processAll opts env now (loadSessions disk) []) as [tr [[ss [|]]|]];
    simpl in *; split; try reflexivity; intros H; try reflexivity.
  rewrite existsb_app in H. simpl in H. rewrite orb_true_r in H. discriminate H.
Qed.

(** ** The observer callback *)

Lemma observed_app l1 l2 : observed (l1 ++ l2) = observed l1 ++ observed l2.
Proof. apply flat_map_app. Qed.

(** A session's processing: the probe, the observer call, then only quiet
    events. *)
Lemma processSession_trace opts env now s alive tr :
  state s <> completed ->
  isSessionAlive env (tmuxSession s) = Some alive ->
  exists rest res,
    processSession opts env now s tr =
      (tr ++ [EvProbe (tmuxSession s)]
          ++ observerEvents opts (evaluateHealth opts now s alive) ++ rest, res)
    /\ Forall quiet rest.
Proof.
  intros Hc Halive. unfold processSession. rewrite (not_completed_eqb _ Hc).
  rewrite (bind_some _ _ _ _ _ (probe_alive _ _ _ tr Halive)). cbv beta zeta.
  destruct (if AgentState_eqb _ _ then _ else _) as [s1 u1].
  unfold bind at 1; rewrite observe_run.
  destruct (observerThrows opts (evaluateHealth opts now s alive)).
  - exists [], None. rewrite app_nil_r, app_assoc. split; [reflexivity | constructor].
  - match goal with
    | |- exists _ _, ?k ?t = _ /\ _ =>
        assert (Hk : framedP quiet k) by (framed_tac; apply quiet_exec);
        exists (fst (k [])), (snd (k [])); split;
        [ rewrite (proj2 Hk); rewrite <- !app_assoc; reflexivity | apply Hk ]
    end.
Qed.

Lemma observed_quiet l : Forall quiet l -> observed l = [].
Proof.
  induction 1 as [|e l He _ IH]; [reflexivity |].
  destruct e; simpl in *; tauto || exact IH.
Qed.

Lemma processSession_observed opts env now s f l r :
  onHealthCheck opts = Some f ->
  processSession opts env now s [] = (l, Some r) ->
  observed l = if notCompleted s
               then [evaluateHealth opts now s (aliveOf env s)] else [].
Proof.
  intros Hf H. unfold notCompleted, aliveOf.
  destruct (AgentState_eqb (state s) completed) eqn:Ec; simpl.
  - unfold processSession in H. rewrite Ec in H. injection H as <- _. reflexivity.
  - assert (Hc : state s <> completed)
      by (intros Hs; rewrite Hs in Ec; discriminate Ec).
    destruct (isSessionAlive env (tmuxSession s)) as [alive|] eqn:Ha.
    + destruct (processSession_trace opts env now s alive [] Hc Ha)
        as (rest & res & Heq & Hq).
      rewrite H in Heq. injection Heq as Hl _. rewrite Hl.
      change (EvProbe (tmuxSession s) :: ?x) with ([EvProbe (tmuxSession s)] ++ x).
      rewrite !observed_app, (observed_quiet rest Hq).
      unfold observerEvents. rewrite Hf. reflexivity.
    + unfold processSession in H. rewrite Ec in H.
      unfold bind, probe, bind, emit in H. rewrite Ha in H. discriminate H.
Qed.

Lemma processAll_observed opts env now ss f l r :
  onHealthCheck opts = Some f ->
  processAll opts env now ss [] = (l, Some r) ->
  observed l = map (fun s => evaluateHealth opts now s (aliveOf env s))
                   (filter notCompleted ss).
Proof.
  intros Hf. revert l r. induction ss as [|s rest IH]; intros l r H.
  - simpl in H. injection H as <- _. reflexivity.
  - rewrite processAll_cons in H.
    destruct (processSession opts env now s []) as [l1 [[s1 u1]|]] eqn:E;
      [| discriminate H].
    rewrite (proj2 (framed_processAll opts env now rest) l1) in H.
    destruct (processAll opts env now rest []) as [l2 [[ss2 u2]|]] eqn:E2;
      simpl in H; [| discriminate H].
    injection H as <- _.
    rewrite observed_app, (processSession_observed opts env now s f l1 _ Hf E),
      (IH l2 _ eq_refl).
    simpl. destruct (notCompleted s); reflexivity.
Qed.

(** C7 (as corrected): in every tick that runs to completion with an
    observer configured, the observer is called exactly once for each
    non-[completed] session, in registry order, with that session's
    verdict, and never for a [completed] one.  The unrestricted claim
    fails: see [observer_not_called_after_abort]. *)
Theorem observer_once_per_live_session opts env now disk f :
  onHealthCheck opts = Some f ->
  tick_completed (runDaemonTick opts env now disk) = true ->
  observed (tick_trace (runDaemonTick opts env now disk)) =
    map (fun s => evaluateHealth opts now s (aliveOf env s))
        (filter notCompleted (loadSessions disk)).
Proof.
  intros Hf. unfold runDaemonTick. cbv zeta.
  destruct (processAll opts env now (loadSessions disk) []) as [tr [[ss [|]]|]] eqn:E;
    simpl; intros H; try discriminate H.
  - rewrite observed_app. simpl. rewrite app_nil_r.
    exact (processAll_observed opts env now _ f tr _ Hf E).
  - exact (processAll_observed opts env now _ f tr _ Hf E).
Qed.

(** C7 counterexample: the observer throws on the first session's verdict;
    the tick stops there and the second, non-completed session is never
    reported. *)
Lemma observer_not_called_after_abort :
  length (observed (tick_trace (runDaemonTick opts_throwing_observer env_alive t_now
                                  [toRaw sess_scenarioA; toRaw sess_silent]))) = 1%nat /\
  length (filter notCompleted (loadSessions [toRaw sess_scenarioA; toRaw sess_silent])) = 2%nat.
Proof. vm_compute. split; reflexivity. Qed.

(** ** A throwing triage call *)

(** C1 (code defect): the triage call at level 2 is the one collaborator
    call of [executeEscalationAction] not wrapped in [try]/[catch].  With
    triage enabled, a session at level 2 whose triage call throws aborts
    the whole tick: the next session (silent far beyond zombieMs, which
    the tick would terminate) is never probed, nothing is written, and the
    first session's processing ends at the triage call.  With triage
    answering [extend] instead, the same tick completes, terminates the
    second session and writes the registry. *)
Theorem triage_failure_aborts_tick :
  runDaemonTick opts_tier1 env_triage_throws t_now
    [toRaw sess_level2; toRaw sess_silent] =
    mkTick [EvProbe (tmuxSession sess_level2);
            EvTriage (agentName sess_level2) (root opts_tier1) (lastActivity sess_level2)]
           false
           [toRaw sess_level2; toRaw sess_silent]
  /\
  runDaemonTick opts_tier1 env_alive t_now
    [toRaw sess_level2; toRaw sess_silent] =
    mkTick [EvProbe (tmuxSession sess_level2);
            EvTriage (agentName sess_level2) (root opts_tier1) (lastActivity sess_level2);
            EvProbe (tmuxSession sess_silent);
            EvKill (tmuxSession sess_silent);
            EvSave]
           true
           [toRaw sess_level2; toRaw (terminatedRecord sess_silent)].
Proof. split; vm_compute; reflexivity. Qed.

(** ** Idempotence of a tick *)

(** The outcome of one session's processing, once its probe answered. *)
Lemma processSession_snd opts env now s tr alive :
  state s <> completed ->
  isSessionAlive env (tmuxSession s) = Some alive ->
  snd (processSession opts env now s tr) =
    let check := evaluateHealth opts now s alive in
    if observerThrows opts check then None else
    match hc_action check with
    | ActTerminate => Some (terminatedRecord s, true)
    | ActInvestigate => Some (s, false)
    | ActNone =>
        match stalledSince s with
        | Some _ => Some (set_escalation s 0 None, true)
        | None => Some (s, false)
        end
    | ActEscalate =>
        let '(s3, u3) := stallPrelude opts now (s, false) in
        match snd (executeEscalationAction opts env s3 alive []) with
        | None => None
        | Some r =>
            if terminated r then Some (terminatedRecord s3, true)
            else if stateChanged r then Some (s3, true) else Some (s3, u3)
        end
    end.
Proof.
  intros Hc Halive. cbv zeta. unfold processSession. rewrite (not_completed_eqb _ Hc).
  rewrite (bind_some _ _ _ _ _ (probe_alive _ _ _ tr Halive)). cbv beta zeta.
  unfold transitionState at 1.
  destruct (hc_action (evaluateHealth opts now s alive)) eqn:Ha;
    try rewrite AgentState_eqb_refl;
    [ | | | destruct (AgentState_eqb zombie (state s)) ];
    (unfold bind at 1; rewrite observe_run;
     destruct (observerThrows opts (evaluateHealth opts now s alive)); [reflexivity |]).
  - destruct (stalledSince s); reflexivity.
  - destruct (stallPrelude opts now (s, false)) as [s3 u3].
    unfold bind at 1. rewrite (proj2 (framed_exec opts env s3 alive)).
    destruct (snd (executeEscalationAction opts env s3 alive [])) as [r|]; [| reflexivity].
    simpl. destruct (terminated r), (stateChanged r); reflexivity.
  - reflexivity.
  - rewrite (bind_some _ _ _ _ _ (kill_if_alive _ _ _ _)). reflexivity.
  - rewrite (bind_some _ _ _ _ _ (kill_if_alive _ _ _ _)). reflexivity.
Qed.

Lemma processSession_probe_fails opts env now s tr :
  state s <> completed ->
  isSessionAlive env (tmuxSession s) = None ->
  snd (processSession opts env now s tr) = None.
Proof.
  intros Hc Ha. unfold processSession. rewrite (not_completed_eqb _ Hc).
  unfold bind at 1, probe, bind at 1, emit. rewrite Ha. reflexivity.
Qed.

Lemma evaluateHealth_ext opts now s s' alive :
  agentName s' = agentName s -> state s' = state s ->
  lastActivity s' = lastActivity s ->
  evaluateHealth opts now s' alive = evaluateHealth opts now s alive.
Proof. intros H1 H2 H3. unfold evaluateHealth. rewrite H1, H2, H3. reflexivity. Qed.

(** A second raise step at the same instant changes nothing. *)
Lemma stallPrelude_idem opts now s u :
  let s' := fst (stallPrelude opts now (s, u)) in
  stallPrelude opts now (s', false) = (s', false).
Proof.
  cbv zeta. destruct s as [n t st la lvl [since|]]; unfold stallPrelude; simpl;
    destruct (expectedLevel opts _) as [e|] eqn:E; simpl;
    [ destruct (Z.ltb_spec lvl e) | | destruct (Z.ltb_spec 0 e) | ]; simpl;
    rewrite E;
    [ rewrite Z.ltb_irrefl | rewrite (proj2 (Z.ltb_ge lvl e)) by lia | |
      rewrite Z.ltb_irrefl | rewrite (proj2 (Z.ltb_ge 0 e)) by lia | ];
    reflexivity.
Qed.

Lemma exec_stateChanged opts env s alive tr r :
  snd (executeEscalationAction opts env s alive tr) = Some r ->
  stateChanged r = terminated r.
Proof.
  intros H.
  unfold executeEscalationAction, try_, killSession, nudge, callTriage,
    bind, emit, ret, throw in H.
  repeat (simpl in H;
          match type of H with
          | context [match ?x with _ => _ end] => destruct x eqn:?
          end);
  simpl in H; try discriminate H; injection H as <-; reflexivity.
Qed.

(** A terminated record stays as it is on a later tick. *)
Lemma zombie_settled opts env now s tr alive :
  state s = zombie -> stalledSince s = None ->
  isSessionAlive env (tmuxSession s) = Some alive ->
  snd (processSession opts env now s tr) = None \/
  snd (processSession opts env now s tr) = Some (s, false).
Proof.
  intros Hz Hs Ha.
  rewrite (processSession_snd opts env now s tr alive) by (congruence || exact Ha).
  cbv zeta. destruct (observerThrows _ _); [left; reflexivity | right].
  unfold evaluateHealth. rewrite Hz. destruct alive; simpl; [reflexivity |].
  rewrite Hs. reflexivity.
Qed.

Lemma processSession_idempotent opts env now s tr s1 u tr' :
  snd (processSession opts env now s tr) = Some (s1, u) ->
  snd (processSession opts env now s1 tr') = None \/
  snd (processSession opts env now s1 tr') = Some (s1, false).
Proof.
  intros H.
  destruct (AgentState_eqb (state s) completed) eqn:Ec.
  { apply AgentState_eqb_true in Ec.
    rewrite completed_session_untouched in H by exact Ec.
    injection H as <- <-. right.
    rewrite completed_session_untouched by exact Ec. reflexivity. }
  assert (Hc : state s <> completed) by (intros Hs; rewrite Hs in Ec; discriminate Ec).
  destruct (isSessionAlive env (tmuxSession s)) as [alive|] eqn:Ha;
    [| rewrite processSession_probe_fails in H by assumption; discriminate H].
  rewrite (processSession_snd opts env now s tr alive Hc Ha) in H. cbv zeta in H.
  destruct (observerThrows opts (evaluateHealth opts now s alive)) eqn:Ho;
    [discriminate H |].
  destruct (hc_action (evaluateHealth opts now s alive)) eqn:Hact.
  - (* none: recovery, or nothing to do *)
    destruct (stalledSince s) eqn:Hss; injection H as <- <-;
      (rewrite (processSession_snd opts env now _ tr' alive) by (simpl; assumption);
       cbv zeta; right);
      [ change (evaluateHealth opts now (set_escalation s 0 None) alive)
          with (evaluateHealth opts now s alive) | ];
      rewrite Ho, Hact; simpl; rewrite ?Hss; reflexivity.
  - (* escalate *)
    pose proof (stallPrelude_fields opts now s false) as (Hn & Ht & Hst & Hl).
    pose proof (stallPrelude_idem opts now s false) as Hidem.
    destruct (stallPrelude opts now (s, false)) as [s3 u3] eqn:Hp.
    simpl in Hn, Ht, Hst, Hl. cbn [fst] in Hidem.
    destruct (snd (executeEscalationAction opts env s3 alive [])) as [r|] eqn:Hr;
      [| discriminate H].
    pose proof (exec_stateChanged opts env s3 alive [] r Hr) as Hsc.
    destruct (terminated r) eqn:Hter.
    + injection H as <- <-.
      apply zombie_settled with (alive := alive); [reflexivity | reflexivity |].
      simpl. rewrite Ht. exact Ha.
    + rewrite Hsc in H. injection H as <- <-.
      rewrite (processSession_snd opts env now s3 tr' alive)
        by (rewrite ?Hst, ?Ht; assumption).
      cbv zeta. right.
      rewrite (evaluateHealth_ext opts now s s3 alive Hn Hst Hl), Ho, Hact, Hidem, Hr,
        Hter, Hsc.
      reflexivity.
  - (* investigate *)
    injection H as <- <-. right.
    rewrite (processSession_snd opts env now s tr' alive Hc Ha). cbv zeta.
    rewrite Ho, Hact. reflexivity.
  - (* terminate *)
    injection H as <- <-.
    apply zombie_settled with (alive := alive); [reflexivity | reflexivity | exact Ha].
Qed.

Lemma processAll_idempotent opts env now ss tr ss1 u tr' :
  snd (processAll opts env now ss tr) = Some (ss1, u) ->
  snd (processAll opts env now ss1 tr') = None \/
  snd (processAll opts env now ss1 tr') = Some (ss1, false).
Proof.
  revert tr ss1 u tr'. induction ss as [|s rest IH]; intros tr ss1 u tr' H.
  - simpl in H. injection H as <- _. right. reflexivity.
  - rewrite processAll_cons in H.
    destruct (processSession opts env now s tr) as [l [[s1 u1]|]] eqn:E;
      [| discriminate H].
    destruct (processAll opts env now rest l) as [l' [[ss2 u2]|]] eqn:E';
      simpl in H; [| discriminate H].
    injection H as <- _. rewrite processAll_cons.
    assert (H1 : snd (processSession opts env now s tr) = Some (s1, u1))
      by (rewrite E; reflexivity).
    destruct (processSession_idempotent opts env now s tr s1 u1 tr' H1) as [Hn | Hs];
      destruct (processSession opts env now s1 tr') as [l1 [[s1' u1']|]];
      simpl in Hn || simpl in Hs; try discriminate; [left; reflexivity |].
    injection Hs as -> ->.
    assert (H2 : snd (processAll opts env now rest l) = Some (ss2, u2))
      by (rewrite E'; reflexivity).
    destruct (IH l ss2 u2 l1 H2) as [Hn | Hs];
      destruct (processAll opts env now ss2 l1) as [l2 [[ss2' u2']|]];
      simpl in Hn || simpl in Hs; try discriminate; [left; reflexivity |].
    injection Hs as -> ->. right. reflexivity.
Qed.

(** A raise step that sets the flag changes the record. *)
Lemma stallPrelude_changed opts now s :
  snd (stallPrelude opts now (s, false)) = true ->
  fst (stallPrelude opts now (s, false)) <> s.
Proof.
  destruct s as [n t st la lvl [since|]]; unfold stallPrelude; simpl;
    destruct (expectedLevel opts _) as [e|]; simpl;
    try destruct (Z.ltb_spec lvl e); try destruct (Z.ltb_spec 0 e); simpl;
    intros Hu Heq; try discriminate Hu; injection Heq; intros; try discriminate; lia.
Qed.

Lemma processSession_changed opts env now s tr s1 :
  snd (processSession opts env now s tr) = Some (s1, true) -> s1 <> s.
Proof.
  intros H.
  destruct (AgentState_eqb (state s) completed) eqn:Ec.
  { apply AgentState_eqb_true in Ec.
    rewrite completed_session_untouched in H by exact Ec. discriminate H. }
  assert (Hc : state s <> completed) by (intros Hs; rewrite Hs in Ec; discriminate Ec).
  destruct (isSessionAlive env (tmuxSession s)) as [alive|] eqn:Ha;
    [| rewrite processSession_probe_fails in H by assumption; discriminate H].
  rewrite (processSession_snd opts env now s tr alive Hc Ha) in H. cbv zeta in H.
  destruct (observerThrows opts (evaluateHealth opts now s alive)); [discriminate H |].
  (* a [terminate] or [escalate] verdict is never given to a zombie *)
  assert (Hz : hc_action (evaluateHealth opts now s alive) = ActTerminate \/
               hc_action (evaluateHealth opts now s alive) = ActEscalate ->
               state s <> zombie)
    by (unfold evaluateHealth; simpl; intros [Hx | Hx] Hs; rewrite Hs in Hx;
        destruct alive; discriminate Hx).
  destruct (hc_action (evaluateHealth opts now s alive)) eqn:Hact.
  - destruct (stalledSince s) eqn:Hss; injection H as <-; [| discriminate].
    intros Heq. rewrite <- Heq in Hss. discriminate Hss.
  - pose proof (stallPrelude_fields opts now s false) as (_ & _ & Hst & _).
    pose proof (stallPrelude_changed opts now s) as Hch.
    destruct (stallPrelude opts now (s, false)) as [s3 u3] eqn:Hp.
    simpl in Hst, Hch.
    destruct (snd (executeEscalationAction opts env s3 alive [])) as [r|] eqn:Hr;
      [| discriminate H].
    pose proof (exec_stateChanged opts env s3 alive [] r Hr) as Hsc.
    destruct (terminated r).
    + injection H as <-. intros Heq.
      apply (Hz (or_intror eq_refl)). rewrite <- Heq. reflexivity.
    + rewrite Hsc in H. injection H as <- ->. apply Hch. reflexivity.
  - discriminate H.
  - injection H as <-. intros Heq.
    apply (Hz (or_introl eq_refl)). rewrite <- Heq. reflexivity.
Qed.

Lemma processAll_changed opts env now ss tr ss1 :
  snd (processAll opts env now ss tr) = Some (ss1, true) -> ss1 <> ss.
Proof.
  revert tr ss1. induction ss as [|s rest IH]; intros tr ss1 H.
  - simpl in H. discriminate H.
  - rewrite processAll_cons in H.
    destruct (processSession opts env now s tr) as [l [[s1 u1]|]] eqn:E;
      [| discriminate H].
    destruct (processAll opts env now rest l) as [l' [[ss2 u2]|]] eqn:E';
      simpl in H; [| discriminate H].
    injection H as <- Hu. intros Heq. injection Heq as Hs Hr.
    destruct u1.
    + apply (processSession_changed opts env now s tr s1); [rewrite E; reflexivity | exact Hs].
    + simpl in Hu. subst u2.
      apply (IH l ss2); [rewrite E'; reflexivity | exact Hr].
Qed.

Lemma filter_notSave l :
  Forall notSave l ->
  filter (fun e => match e with EvSave => true | _ => false end) l = [].
Proof.
  induction 1 as [|e l He _ IH]; [reflexivity |].
  simpl. rewrite IH. destruct e; simpl in *; tauto.
Qed.

(** C6: a second tick at the same instant, with the same liveness answers,
    over the registry left by a first tick, leaves the registry as it is and
    does not write it. Each tick writes at most once, and a tick that writes
    stores a registry different from the one it loaded. *)
Theorem tick_idempotent opts env now disk :
  let r1 := runDaemonTick opts env now disk in
  let r2 := runDaemonTick opts env now (tick_disk r1) in
  tick_disk r2 = tick_disk r1 /\ wrote r2 = false /\
  (saveCount r1 <= 1)%nat /\
  (wrote r1 = true -> loadSessions (tick_disk r1) <> loadSessions disk).
Proof.
  cbv zeta.
  pose proof (processAll_no_save opts env now (loadSessions disk)) as Hns.
  pose proof (processAll_changed opts env now (loadSessions disk) []) as Hch.
  pose proof (processAll_idempotent opts env now (loadSessions disk) []) as Hid.
  destruct (processAll opts env now (loadSessions disk) []) as [tr [[ss u]|]] eqn:E;
    simpl in Hns.
  - destruct u.
    + assert (Hr1 : runDaemonTick opts env now disk =
                    mkTick (tr ++ [EvSave]) true (saveSessions ss))
        by (unfold runDaemonTick; rewrite E; reflexivity).
      rewrite Hr1. simpl.
      pose proof (processAll_no_save opts env now ss) as Hns2.
      unfold runDaemonTick. rewrite load_save.
      destruct (Hid ss true [] eq_refl) as [Hn | Hs];
        destruct (processAll opts env now ss []) as [tr2 [[ss2 u2]|]];
        simpl in Hns2; try (simpl in Hn); try (simpl in Hs); try discriminate.
      * unfold saveCount, wrote; simpl.
        rewrite existsb_notSave by exact Hns2.
        rewrite filter_app, filter_notSave by exact Hns. simpl.
        repeat split; [lia |]. intros _. exact (Hch ss eq_refl).
      * injection Hs as -> ->. unfold saveCount, wrote; simpl.
        rewrite existsb_notSave by exact Hns2.
        rewrite filter_app, filter_notSave by exact Hns. simpl.
        repeat split; [lia |]. intros _. exact (Hch ss eq_refl).
    + assert (Hr1 : runDaemonTick opts env now disk = mkTick tr true disk)
        by (unfold runDaemonTick; rewrite E; reflexivity).
      rewrite Hr1. simpl. rewrite Hr1. unfold saveCount, wrote; simpl.
      rewrite existsb_notSave by exact Hns. rewrite filter_notSave by exact Hns.
      repeat split; [simpl; lia | discriminate].
  - assert (Hr1 : runDaemonTick opts env now disk = mkTick tr false disk)
      by (unfold runDaemonTick; rewrite E; reflexivity).
    rewrite Hr1. simpl. rewrite Hr1. unfold saveCount, wrote; simpl.
    rewrite existsb_notSave by exact Hns. rewrite filter_notSave by exact Hns.
    repeat split; [simpl; lia | discriminate].
Qed.

(** ** Further properties of the tick *)

Ltac stall_fields :=
  repeat match goal with
  | Hx : ?SP (?a, ?b) = (?s3, ?u3), HSP : ?SP = stallPrelude ?o ?n |- _ =>
      let F := fresh "F" in
      pose proof (stallPrelude_fields o n a b) as F;
      rewrite <- HSP, Hx in F; simpl in F;
      destruct F as (? & ? & ? & ?); clear Hx
  | Hx : negb _ = false |- _ => apply negb_false_iff in Hx
  end.

Ltac framed_by tac :=
  repeat match goal with
  | |- framedP _ (bind _ _) => apply framed_bind; [ | intros ]
  | |- framedP _ (ret _) => apply framed_ret
  | |- framedP _ throw => apply framed_throw
  | |- framedP _ (emit _) => apply framed_emit; tac
  | |- framedP _ (try_ _) => apply framed_try
  | |- framedP _ (killSession _ _) => unfold killSession
  | |- framedP _ (nudge _ _ _ _ _) => unfold nudge
  | |- framedP _ (callTriage _ _ _ _) => unfold callTriage
  | |- framedP _ (observe _ _) => unfold observe
  | |- framedP _ (match ?x with _ => _ end) => destruct x eqn:?
  | |- framedP _ (if ?b then _ else _) => destruct b eqn:?
  end.

Lemma framed_bind_probe {B} (P : Event -> Prop) env n (k : bool -> M B) :
  P (EvProbe n) ->
  (forall a, isSessionAlive env n = Some a -> framedP P (k a)) ->
  framedP P (bind (probe env n) k).
Proof.
  intros Hp Hk. unfold probe, bind, emit, ret, throw, framedP. simpl.
  destruct (isSessionAlive env n) as [b|] eqn:E.
  - destruct (Hk b eq_refl) as [Hs Hm]. split.
    + rewrite (Hm [EvProbe n]). simpl. constructor; assumption.
    + intro tr. rewrite (Hm (tr ++ [EvProbe n])), (Hm [EvProbe n]).
      simpl. rewrite <- app_assoc. reflexivity.
  - split; [constructor; [exact Hp | constructor] | reflexivity].
Qed.

Ltac ev_tac Hc :=
  split; [exact Hc |]; simpl;
  repeat match goal with Hx : negb _ = false |- _ => apply negb_false_iff in Hx end;
  intuition (try reflexivity; try congruence).

Lemma framed_exec_session opts env s s3 a :
  notCompleted s = true ->
  agentName s3 = agentName s -> tmuxSession s3 = tmuxSession s ->
  lastActivity s3 = lastActivity s ->
  (a = true -> isSessionAlive env (tmuxSession s) = Some true) ->
  framedP (sessionEvent opts env s) (executeEscalationAction opts env s3 a).
Proof.
  intros Hc Hn Ht Hl Ha. unfold executeEscalationAction.
  rewrite Hn, Ht, Hl.
  framed_by ltac:(ev_tac Hc).
Qed.

Lemma processSession_events opts env now s :
  framedP (sessionEvent opts env s) (processSession opts env now s).
Proof.
  unfold processSession.
  destruct (AgentState_eqb (state s) completed) eqn:Ec; [apply framed_ret |].
  assert (Hc : notCompleted s = true) by (unfold notCompleted; rewrite Ec; reflexivity).
  apply framed_bind_probe; [split; [exact Hc | reflexivity] |].
  intros a Ha. cbv zeta.
  destruct (if AgentState_eqb _ _ then _ else _) as [s1 u1] eqn:E1.
  assert (F1 : agentName s1 = agentName s /\ tmuxSession s1 = tmuxSession s /\
               lastActivity s1 = lastActivity s)
    by (revert E1; match goal with |- (if ?b then _ else _) = _ -> _ => destruct b end;
        intros E1; injection E1 as <- _; auto).
  destruct F1 as (Hn & Ht & Hl).
  apply framed_bind; [unfold observe; framed_by ltac:(ev_tac Hc) | intros _].
  destruct (hc_action _).
  - destruct (stalledSince s1); apply framed_ret.
  - destruct (stallPrelude opts now (s1, u1)) as [s3 u3] eqn:E3.
    pose proof (stallPrelude_fields opts now s1 u1) as F3.
    rewrite E3 in F3. simpl in F3. destruct F3 as (Hn3 & Ht3 & _ & Hl3).
    apply framed_bind.
    + apply framed_exec_session; congruence.
    + intros r. destruct (terminated r), (stateChanged r); apply framed_ret.
  - apply framed_ret.
  - apply framed_bind; [| intros; apply framed_ret].
    destruct a; [| apply framed_ret].
    apply framed_try. unfold killSession. framed_by ltac:(ev_tac Hc).
Qed.



Lemma processAll_events opts env now ss :
  Forall (fun e => exists s, In s ss /\ sessionEvent opts env s e)
         (fst (processAll opts env now ss [])).
Proof.
  induction ss as [|s rest IH]; [constructor |].
  rewrite processAll_cons.
  destruct (processSession_events opts env now s) as [Hs _].
  destruct (processSession opts env now s []) as [l1 [[s1 u1]|]] eqn:E;
    simpl in Hs.
  - rewrite (proj2 (framed_processAll opts env now rest) l1).
    destruct (processAll opts env now rest []) as [l2 [[ss2 u2]|]];
      simpl in *; apply Forall_app; split;
      (eapply Forall_impl; [| eassumption]); simpl;
      intros e He; (exists s; split; [left; reflexivity | exact He]) ||
      (destruct He as (s' & Hin & He'); exists s'; split; [right; exact Hin | exact He']).
  - simpl. eapply Forall_impl; [| exact Hs].
    intros e He. exists s. split; [left; reflexivity | exact He].
Qed.

Lemma tick_events opts env now disk :
  Forall (fun e => e = EvSave \/
                   exists s, In s (loadSessions disk) /\ sessionEvent opts env s e)
         (tick_trace (runDaemonTick opts env now disk)).
Proof.
  pose proof (processAll_events opts env now (loadSessions disk)) as H.
  unfold runDaemonTick. cbv zeta.
  destruct (processAll opts env now (loadSessions disk) []) as [tr [[ss [|]]|]];
    simpl in *.
  - apply Forall_app. split; [| repeat constructor; left; reflexivity].
    eapply Forall_impl; [| exact H]. intros; right; assumption.
  - eapply Forall_impl; [| exact H]. intros; right; assumption.
  - eapply Forall_impl; [| exact H]. intros; right; assumption.
Qed.

(** The events one session's processing appends, once the probe answered. *)
Lemma processSession_fst opts env now s tr alive :
  state s <> completed ->
  isSessionAlive env (tmuxSession s) = Some alive ->
  fst (processSession opts env now s tr) =
    let check := evaluateHealth opts now s alive in
    tr ++ [EvProbe (tmuxSession s)] ++ observerEvents opts check ++
    (if observerThrows opts check then [] else
     match hc_action check with
     | ActTerminate => if alive then [EvKill (tmuxSession s)] else []
     | ActEscalate =>
         fst (executeEscalationAction opts env
                (fst (stallPrelude opts now (s, false))) alive [])
     | _ => []
     end).
Proof.
  intros Hc Halive. cbv zeta. unfold processSession. rewrite (not_completed_eqb _ Hc).
  rewrite (bind_some _ _ _ _ _ (probe_alive _ _ _ tr Halive)). cbv beta zeta.
  unfold transitionState at 1.
  destruct (hc_action (evaluateHealth opts now s alive)) eqn:Ha;
    try rewrite AgentState_eqb_refl;
    [ | | | destruct (AgentState_eqb zombie (state s)) ];
    (unfold bind at 1; rewrite observe_run;
     destruct (observerThrows opts (evaluateHealth opts now s alive));
     [simpl; rewrite app_nil_r, <- app_assoc; reflexivity |]).
  - destruct (stalledSince s); simpl; rewrite app_nil_r, <- app_assoc; reflexivity.
  - destruct (stallPrelude opts now (s, false)) as [s3 u3].
    unfold bind at 1. rewrite (proj2 (framed_exec opts env s3 alive)).
    destruct (snd (executeEscalationAction opts env s3 alive [])) as [r|];
      [destruct (terminated r), (stateChanged r) |]; simpl;
      rewrite <- !app_assoc; reflexivity.
  - simpl; rewrite app_nil_r, <- app_assoc; reflexivity.
  - rewrite (bind_some _ _ _ _ _ (kill_if_alive _ _ _ _)).
    simpl; rewrite <- !app_assoc; reflexivity.
  - rewrite (bind_some _ _ _ _ _ (kill_if_alive _ _ _ _)).
    simpl; rewrite <- !app_assoc; reflexivity.
Qed.

Ltac exec_cases :=
  unfold executeEscalationAction, callTriage, nudge, killSession, try_,
    bind, emit, ret, throw;
  repeat (simpl; match goal with
                 | |- context [match ?x with _ => _ end] =>
                     lazymatch type of x with
                     | bool => destruct x
                     | option TriageVerdict => destruct x
                     | TriageVerdict => destruct x
                     end
                 end); simpl.

Lemma exec_kill_terminated opts env s a x :
  In (EvKill x) (fst (executeEscalationAction opts env s a [])) ->
  snd (executeEscalationAction opts env s a []) = Some (mkResult true true).
Proof.
  exec_cases; intros Hin; try reflexivity;
    repeat (destruct Hin as [Hin | Hin]; [discriminate Hin |]); contradiction.
Qed.

Lemma exec_calls opts env s a :
  (length (kills (fst (executeEscalationAction opts env s a []))) +
   length (nudges (fst (executeEscalationAction opts env s a []))) <= 1)%nat /\
  probes (fst (executeEscalationAction opts env s a [])) = [].
Proof. exec_cases; split; (lia || reflexivity). Qed.

Lemma processSession_probe_fails_fst opts env now s tr :
  state s <> completed ->
  isSessionAlive env (tmuxSession s) = None ->
  fst (processSession opts env now s tr) = tr ++ [EvProbe (tmuxSession s)].
Proof.
  intros Hc Ha. unfold processSession. rewrite (not_completed_eqb _ Hc).
  unfold bind, probe, bind, emit. rewrite Ha. reflexivity.
Qed.

Lemma observerEvents_calls opts c :
  kills (observerEvents opts c) = [] /\ nudges (observerEvents opts c) = [] /\
  probes (observerEvents opts c) = [].
Proof. unfold observerEvents. destruct (onHealthCheck opts); repeat split. Qed.

Lemma processSession_kill opts env now s x :
  In (EvKill x) (fst (processSession opts env now s [])) ->
  snd (processSession opts env now s []) = Some (terminatedRecord s, true).
Proof.
  intros Hin.
  destruct (AgentState_eqb (state s) completed) eqn:Ec.
  { unfold processSession in Hin. rewrite Ec in Hin. contradiction Hin. }
  assert (Hc : state s <> completed) by (intros Hs; rewrite Hs in Ec; discriminate Ec).
  destruct (isSessionAlive env (tmuxSession s)) as [alive|] eqn:Ha.
  2:{ rewrite processSession_probe_fails_fst in Hin by assumption.
      destruct Hin as [Hin | Hin]; [discriminate Hin | contradiction Hin]. }
  rewrite (processSession_fst opts env now s [] alive Hc Ha) in Hin.
  rewrite (processSession_snd opts env now s [] alive Hc Ha). cbv zeta in *.
  pose proof (terminatedRecord_stallPrelude opts now s false) as Ht.
  set (check := evaluateHealth opts now s alive) in *.
  destruct (stallPrelude opts now (s, false)) as [s3 u3]. simpl in Ht.
  rewrite app_nil_l in Hin.
  apply in_app_or in Hin. destruct Hin as [Hin | Hin].
  { destruct Hin as [Hin | Hin]; [discriminate Hin | contradiction Hin]. }
  apply in_app_or in Hin. destruct Hin as [Hin | Hin].
  { unfold observerEvents in Hin. destruct (onHealthCheck opts);
      [destruct Hin as [Hin | Hin]; [discriminate Hin | contradiction Hin] | contradiction Hin]. }
  destruct (observerThrows opts check); [contradiction Hin |].
  destruct (hc_action check).
  - contradiction Hin.
  - rewrite (exec_kill_terminated opts env s3 alive x Hin). simpl.
    rewrite Ht. reflexivity.
  - contradiction Hin.
  - reflexivity.
Qed.

Lemma processSession_calls opts env now s :
  let l := fst (processSession opts env now s []) in
  (length (kills l) + length (nudges l) <= 1)%nat /\
  probes l = if notCompleted s then [tmuxSession s] else [].
Proof.
  cbv zeta. unfold notCompleted.
  destruct (AgentState_eqb (state s) completed) eqn:Ec.
  { unfold processSession. rewrite Ec. simpl. split; [lia | reflexivity]. }
  assert (Hc : state s <> completed) by (intros Hs; rewrite Hs in Ec; discriminate Ec).
  destruct (isSessionAlive env (tmuxSession s)) as [alive|] eqn:Ha.
  2:{ rewrite processSession_probe_fails_fst by assumption. simpl. split; [lia | reflexivity]. }
  rewrite (processSession_fst opts env now s [] alive Hc Ha). cbv zeta.
  pose proof (exec_calls opts env (fst (stallPrelude opts now (s, false))) alive) as He.
  set (check := evaluateHealth opts now s alive) in *.
  set (s3 := fst (stallPrelude opts now (s, false))) in *.
  clearbody check s3.
  destruct (observerEvents_calls opts check) as (Hk & Hn & Hp).
  unfold kills, nudges, probes in *. rewrite !flat_map_app, Hk, Hn, Hp. simpl.
  destruct (observerThrows opts check); [simpl; split; [lia | reflexivity] |].
  destruct (hc_action check); simpl;
    try (split; [lia | reflexivity]).
  - destruct He as [He1 He2]. rewrite He2. split; [exact He1 | reflexivity].
  - destruct alive; simpl; split; [lia | reflexivity | lia | reflexivity].
Qed.

Lemma probes_app l1 l2 : probes (l1 ++ l2) = probes l1 ++ probes l2.
Proof. apply flat_map_app. Qed.

Lemma processAll_probes opts env now ss :
  exists rest,
    probes (fst (processAll opts env now ss [])) ++ rest =
      map tmuxSession (filter notCompleted ss) /\
    (snd (processAll opts env now ss []) <> None -> rest = []).
Proof.
  induction ss as [|s ss IH]; [exists []; split; reflexivity |].
  rewrite processAll_cons.
  destruct (processSession_calls opts env now s) as [_ Hp].
  destruct (processSession opts env now s []) as [l1 [[s1 u1]|]] eqn:E;
    simpl in Hp; simpl.
  - rewrite (proj2 (framed_processAll opts env now ss) l1).
    destruct IH as (rest & Hr & Hn). exists rest.
    destruct (processAll opts env now ss []) as [l2 [[ss2 u2]|]]; simpl in *;
      rewrite probes_app, <- app_assoc, Hr, Hp;
      (split; [destruct (notCompleted s); reflexivity |]).
    + intros _. apply Hn. discriminate.
    + intros H; contradiction H; reflexivity.
  - exists (map tmuxSession (filter notCompleted ss)). rewrite Hp.
    split; [destruct (notCompleted s); reflexivity |].
    intros H; contradiction H; reflexivity.
Qed.

Lemma processAll_kill opts env now ss x ss' u :
  snd (processAll opts env now ss []) = Some (ss', u) ->
  In (EvKill x) (fst (processAll opts env now ss [])) ->
  u = true /\ exists s, In s ss /\ tmuxSession s = x /\ In (terminatedRecord s) ss'.
Proof.
  revert ss' u. induction ss as [|s ss IH]; intros ss' u H Hin.
  - contradiction Hin.
  - rewrite processAll_cons in H, Hin.
    pose proof (processSession_kill opts env now s x) as Hk.
    destruct (processSession_events opts env now s) as [Hev _].
    destruct (processSession opts env now s []) as [l1 [[s1 u1]|]] eqn:E;
      simpl in H, Hk, Hev; [| discriminate H].
    rewrite (proj2 (framed_processAll opts env now ss) l1) in H, Hin.
    destruct (processAll opts env now ss []) as [l2 [[ss2 u2]|]] eqn:E2;
      simpl in H, Hin; [| discriminate H].
    injection H as <- <-.
    apply in_app_or in Hin. destruct Hin as [Hin | Hin].
    + injection (Hk Hin) as -> ->. split; [reflexivity |].
      exists s. split; [left; reflexivity |]. split.
      * rewrite Forall_forall in Hev. destruct (Hev _ Hin) as [_ [Hx _]]. symmetry. exact Hx.
      * left. reflexivity.
    + destruct (IH ss2 u2 eq_refl Hin) as [-> (s' & Hs' & Hx & Ht)].
      split; [apply orb_true_r |].
      exists s'. split; [right; exact Hs' |]. split; [exact Hx | right; exact Ht].
Qed.

Lemma expectedLevel_le opts x e : expectedLevel opts x = Some e -> e <= 3.
Proof.
  unfold expectedLevel, MAX_ESCALATION_LEVEL.
  destruct (nudgeInterval opts =? 0); [destruct (0 <? x) |]; intros H;
    try discriminate H; injection H as <-; lia.
Qed.

Lemma stallPrelude_record opts now s u :
  let s' := fst (stallPrelude opts now (s, u)) in
  stalledSince s' = Some (match stalledSince s with Some t => t | None => now end) /\
  (0 <= escalationLevel s <= 3 -> 0 <= escalationLevel s' <= 3).
Proof.
  cbv zeta.
  destruct s as [n t st la lvl [since|]]; unfold stallPrelude; simpl;
    destruct (expectedLevel opts _) as [e|] eqn:Ee; simpl;
    try (pose proof (expectedLevel_le _ _ _ Ee));
    try destruct (Z.ltb_spec lvl e); try destruct (Z.ltb_spec 0 e); simpl;
    split; try reflexivity; lia.
Qed.

Lemma recordStep_refl now s : recordStep now s s.
Proof. unfold recordStep. intuition. Qed.

Lemma recordStep_all now l : Forall2 (recordStep now) l l.
Proof. induction l; constructor; [apply recordStep_refl | assumption]. Qed.

Lemma recordStep_terminated now s : state s <> completed -> recordStep now s (terminatedRecord s).
Proof. intros Hc. unfold recordStep; simpl. intuition (try lia; try contradiction). Qed.

Lemma processSession_record opts env now s tr s1 u :
  snd (processSession opts env now s tr) = Some (s1, u) -> recordStep now s s1.
Proof.
  intros H.
  destruct (AgentState_eqb (state s) completed) eqn:Ec.
  { unfold processSession in H. rewrite Ec in H. injection H as <- _.
    apply recordStep_refl. }
  assert (Hc : state s <> completed) by (intros Hs; rewrite Hs in Ec; discriminate Ec).
  destruct (isSessionAlive env (tmuxSession s)) as [alive|] eqn:Ha;
    [| rewrite processSession_probe_fails in H by assumption; discriminate H].
  rewrite (processSession_snd opts env now s tr alive Hc Ha) in H. cbv zeta in H.
  destruct (observerThrows opts (evaluateHealth opts now s alive)); [discriminate H |].
  destruct (hc_action (evaluateHealth opts now s alive)).
  - destruct (stalledSince s) eqn:Hs; injection H as <- _; [| apply recordStep_refl].
    unfold recordStep; simpl. intuition (try lia; try contradiction).
  - pose proof (stallPrelude_fields opts now s false) as (Hn & Ht & Hst & Hl).
    pose proof (stallPrelude_record opts now s false) as (Hsi & Hlv).
    pose proof (terminatedRecord_stallPrelude opts now s false) as Htr.
    destruct (stallPrelude opts now (s, false)) as [s3 u3]. simpl in *.
    destruct (snd (executeEscalationAction opts env s3 alive [])) as [r|];
      [| discriminate H].
    destruct (terminated r).
    + injection H as <- _. rewrite Htr. apply recordStep_terminated. exact Hc.
    + assert (Hr : recordStep now s s3).
      { unfold recordStep. rewrite Hsi.
        destruct (stalledSince s); intuition (try contradiction). }
      destruct (stateChanged r); injection H as <- _; exact Hr.
  - injection H as <- _. apply recordStep_refl.
  - injection H as <- _. apply recordStep_terminated. exact Hc.
Qed.

Lemma processAll_record opts env now ss tr ss1 u :
  snd (processAll opts env now ss tr) = Some (ss1, u) -> Forall2 (recordStep now) ss ss1.
Proof.
  revert tr ss1 u. induction ss as [|s rest IH]; intros tr ss1 u H.
  - simpl in H. injection H as <- _. constructor.
  - rewrite processAll_cons in H.
    destruct (processSession opts env now s tr) as [l [[s1 u1]|]] eqn:E;
      [| discriminate H].
    destruct (processAll opts env now rest l) as [l' [[ss2 u2]|]] eqn:E';
      simpl in H; [| discriminate H].
    injection H as <- _. constructor.
    + apply (processSession_record opts env now s tr s1 u1). rewrite E. reflexivity.
    + apply (IH l ss2 u2). rewrite E'. reflexivity.
Qed.

Lemma tick_record opts env now disk :
  Forall2 (recordStep now) (loadSessions disk)
          (loadSessions (tick_disk (runDaemonTick opts env now disk))).
Proof.
  pose proof (processAll_record opts env now (loadSessions disk) []) as H.
  unfold runDaemonTick. cbv zeta.
  destruct (processAll opts env now (loadSessions disk) []) as [tr [[ss [|]]|]];
    simpl.
  - rewrite load_save. exact (H ss true eq_refl).
  - apply recordStep_all.
  - apply recordStep_all.
Qed.

Lemma exec_env opts env kt nt s a tr :
  executeEscalationAction opts (withFailures env kt nt) s a tr =
  executeEscalationAction opts env s a tr.
Proof. exec_cases; reflexivity. Qed.

Lemma processSession_env opts env kt nt now s tr :
  processSession opts (withFailures env kt nt) now s tr =
  processSession opts env now s tr.
Proof.
  destruct (AgentState_eqb (state s) completed) eqn:Ec.
  { unfold processSession. rewrite Ec. reflexivity. }
  assert (Hc : state s <> completed) by (intros Hs; rewrite Hs in Ec; discriminate Ec).
  destruct (isSessionAlive env (tmuxSession s)) as [alive|] eqn:Ha.
  - rewrite (surjective_pairing (processSession opts (withFailures env kt nt) now s tr)),
      (surjective_pairing (processSession opts env now s tr)).
    rewrite (processSession_fst opts (withFailures env kt nt) now s tr alive Hc Ha),
      (processSession_snd opts (withFailures env kt nt) now s tr alive Hc Ha),
      (processSession_fst opts env now s tr alive Hc Ha),
      (processSession_snd opts env now s tr alive Hc Ha).
    cbv zeta. destruct (stallPrelude opts now (s, false)) as [s3 u3].
    rewrite !exec_env. reflexivity.
  - rewrite (surjective_pairing (processSession opts (withFailures env kt nt) now s tr)),
      (surjective_pairing (processSession opts env now s tr)).
    rewrite (processSession_probe_fails_fst opts (withFailures env kt nt) now s tr Hc Ha),
      (processSession_probe_fails opts (withFailures env kt nt) now s tr Hc Ha),
      (processSession_probe_fails_fst opts env now s tr Hc Ha),
      (processSession_probe_fails opts env now s tr Hc Ha).
    reflexivity.
Qed.

Lemma processAll_env opts env kt nt now ss tr :
  processAll opts (withFailures env kt nt) now ss tr = processAll opts env now ss tr.
Proof.
  revert tr. induction ss as [|s ss IH]; intros tr; [reflexivity |].
  rewrite !processAll_cons, processSession_env.
  destruct (processSession opts env now s tr) as [l [[s1 u1]|]]; [| reflexivity].
  rewrite IH. reflexivity.
Qed.

Lemma processAll_all_completed opts env now ss tr :
  Forall (fun s => state s = completed) ss ->
  processAll opts env now ss tr = (tr, Some (ss, false)).
Proof.
  induction 1 as [|s ss Hs _ IH]; [reflexivity |].
  rewrite processAll_cons. unfold processSession at 1. rewrite Hs. simpl.
  rewrite IH. reflexivity.
Qed.

(** X13: [executeEscalationAction] reports [stateChanged] exactly when it
    reports [terminated], and it terminates exactly at the levels other
    than 0 and 1 (negative levels included, through the [default] branch),
    except that level 2 terminates only with triage enabled and answering
    [terminate]. *)
Theorem exec_terminates_iff opts env s a tr r :
  snd (executeEscalationAction opts env s a tr) = Some r ->
  stateChanged r = terminated r /\
  (terminated r = true <->
     escalationLevel s <> 0 /\ escalationLevel s <> 1 /\
     (escalationLevel s = 2 ->
        tier1 opts = true /\
        triage env (agentName s) (root opts) (lastActivity s) = Some TriageTerminate)).
Proof.
  revert r.
  unfold executeEscalationAction.
  destruct (Z.eqb_spec (escalationLevel s) 0) as [E0 | E0];
  [| destruct (Z.eqb_spec (escalationLevel s) 1) as [E1 | E1];
     [| destruct (Z.eqb_spec (escalationLevel s) 2) as [E2 | E2]]];
  destruct (tier1 opts);
  exec_cases; intros r H; try discriminate H; injection H as <-; simpl;
  intuition (try lia; try congruence).
Qed.

Lemma Forall2_Forall {A} (R : A -> A -> Prop) (P : A -> Prop) l l' :
  (forall x y, R x y -> P x -> P y) ->
  Forall2 R l l' -> Forall P l -> Forall P l'.
Proof.
  intros HR H2. induction H2 as [|x y l l' Hxy _ IH]; intros Hl; [constructor |].
  inversion Hl; subst. constructor; [exact (HR x y Hxy ltac:(assumption)) | auto].
Qed.

Lemma tick_event_of opts env now disk e :
  In e (tick_trace (runDaemonTick opts env now disk)) -> e <> EvSave ->
  exists s, In s (loadSessions disk) /\ sessionEvent opts env s e.
Proof.
  intros Hin Hne. pose proof (tick_events opts env now disk) as H.
  rewrite Forall_forall in H. destruct (H e Hin) as [He | He];
    [contradiction | exact He].
Qed.

Lemma notCompleted_true s : notCompleted s = true -> state s <> completed.
Proof.
  unfold notCompleted. intros H Hs. rewrite Hs in H. discriminate H.
Qed.

(** X1: a tick calls [killSession] only on the tmux session of a loaded,
    non-[completed] record, and only when the liveness probe reported that
    tmux session alive. *)
Theorem tick_kills_only_live_sessions opts env now disk x :
  In (EvKill x) (tick_trace (runDaemonTick opts env now disk)) ->
  isSessionAlive env x = Some true /\
  exists s, In s (loadSessions disk) /\ state s <> completed /\ tmuxSession s = x.
Proof.
  intros Hin.
  destruct (tick_event_of opts env now disk _ Hin ltac:(discriminate))
    as (s & Hs & Hc & Hx & Ha).
  split; [exact Ha |]. exists s. split; [exact Hs |].
  split; [apply notCompleted_true; exact Hc | symmetry; exact Hx].
Qed.

(** X2: every nudge a tick sends goes to the project root, is forced, and
    carries either the stall text naming the agent or (only with triage
    enabled) the recovery text; it is sent for the agent of a loaded,
    non-[completed] record. *)
Theorem tick_nudges_forced_to_root opts env now disk r a m f :
  In (EvNudge r a m f) (tick_trace (runDaemonTick opts env now disk)) ->
  r = root opts /\ f = true /\
  (m = StallNotice a \/ (m = RecoveryNotice /\ tier1 opts = true)) /\
  exists s, In s (loadSessions disk) /\ state s <> completed /\ agentName s = a.
Proof.
  intros Hin.
  destruct (tick_event_of opts env now disk _ Hin ltac:(discriminate))
    as (s & Hs & Hc & Hr & Ha & Hf & Hm).
  split; [exact Hr |]. split; [exact Hf |]. split; [exact Hm |].
  exists s. split; [exact Hs |].
  split; [apply notCompleted_true; exact Hc | symmetry; exact Ha].
Qed.

(** X3: a tick calls triage only when [tier1Enabled] is set, with the
    project root, for the agent and last activity of a loaded,
    non-[completed] record. *)
Theorem tick_triage_only_when_enabled opts env now disk a r la :
  In (EvTriage a r la) (tick_trace (runDaemonTick opts env now disk)) ->
  tier1 opts = true /\ r = root opts /\
  exists s, In s (loadSessions disk) /\ state s <> completed /\
            agentName s = a /\ lastActivity s = la.
Proof.
  intros Hin.
  destruct (tick_event_of opts env now disk _ Hin ltac:(discriminate))
    as (s & Hs & Hc & Ha & Hr & Hl & Ht).
  split; [exact Ht |]. split; [exact Hr |].
  exists s. split; [exact Hs |].
  split; [apply notCompleted_true; exact Hc |].
  split; symmetry; assumption.
Qed.

(** X4: the liveness probes of a tick are one per non-[completed] record,
    in registry order, and none for a [completed] record: a prefix of that
    list, the whole list when the tick completes. *)
Theorem tick_probes_in_order opts env now disk :
  exists rest,
    probes (tick_trace (runDaemonTick opts env now disk)) ++ rest =
      map tmuxSession (filter notCompleted (loadSessions disk)) /\
    (tick_completed (runDaemonTick opts env now disk) = true -> rest = []).
Proof.
  destruct (processAll_probes opts env now (loadSessions disk)) as (rest & Hr & Hn).
  exists rest. unfold runDaemonTick. cbv zeta.
  destruct (processAll opts env now (loadSessions disk) []) as [tr [[ss [|]]|]];
    simpl in *.
  - rewrite probes_app, <- app_assoc. simpl. split; [exact Hr |].
    intros _. apply Hn. discriminate.
  - split; [exact Hr |]. intros _. apply Hn. discriminate.
  - split; [exact Hr | discriminate].
Qed.

(** X5: whether [killSession] or the nudge call fails makes no difference
    to a tick: the same calls, the same outcome, the same registry. *)
Theorem tick_ignores_kill_nudge_failures opts env kt nt now disk :
  runDaemonTick opts (withFailures env kt nt) now disk = runDaemonTick opts env now disk.
Proof. unfold runDaemonTick. rewrite processAll_env. reflexivity. Qed.

(** X6: a tick never adds, drops or reorders records, never changes a
    record's [agentName], [tmuxSession] or [lastActivity], leaves a
    [completed] record as it is, and sets [stalledSince] only to [null] or
    to the tick's own instant. *)
Theorem tick_keeps_record_identity opts env now disk :
  Forall2 (fun s s1 =>
             agentName s1 = agentName s /\ tmuxSession s1 = tmuxSession s /\
             lastActivity s1 = lastActivity s /\
             (state s = completed -> s1 = s) /\
             (stalledSince s1 = stalledSince s \/ stalledSince s1 = None \/
              stalledSince s1 = Some now))
          (loadSessions disk)
          (loadSessions (tick_disk (runDaemonTick opts env now disk))).
Proof.
  eapply Forall2_impl; [| apply tick_record].
  intros s s1 (H1 & H2 & H3 & H4 & H5 & _). tauto.
Qed.

(** X7: when every loaded record has an escalation level between 0 and 3,
    so has every record after the tick. *)
Theorem tick_keeps_level_in_range opts env now disk :
  Forall (fun s => 0 <= escalationLevel s <= 3) (loadSessions disk) ->
  Forall (fun s => 0 <= escalationLevel s <= 3)
         (loadSessions (tick_disk (runDaemonTick opts env now disk))).
Proof.
  apply Forall2_Forall with (R := recordStep now); [| apply tick_record].
  intros s s1 (_ & _ & _ & _ & _ & H). exact H.
Qed.

(** X8: a tick over a registry with no record other than [completed] ones
    (the empty registry included) makes no call at all and writes
    nothing. *)
Theorem tick_all_completed_noop opts env now disk :
  Forall (fun s => state s = completed) (loadSessions disk) ->
  runDaemonTick opts env now disk = mkTick [] true disk.
Proof.
  intros H. unfold runDaemonTick. cbv zeta.
  rewrite (processAll_all_completed opts env now _ [] H). reflexivity.
Qed.

(** X9: when a tick completes, every session whose tmux session it killed
    is written back as [zombie], with [escalationLevel] 0 and
    [stalledSince] null. *)
Theorem tick_killed_session_stored_terminated opts env now disk x :
  tick_completed (runDaemonTick opts env now disk) = true ->
  In (EvKill x) (tick_trace (runDaemonTick opts env now disk)) ->
  exists s, In s (loadSessions disk) /\ tmuxSession s = x /\
    In (terminatedRecord s) (loadSessions (tick_disk (runDaemonTick opts env now disk))).
Proof.
  pose proof (processAll_kill opts env now (loadSessions disk) x) as Hk.
  unfold runDaemonTick. cbv zeta.
  destruct (processAll opts env now (loadSessions disk) []) as [tr [[ss u]|]];
    simpl in *; intros Hc Hin; [| discriminate Hc].
  destruct u.
  - apply in_app_or in Hin. destruct Hin as [Hin | [Hin | []]]; [| discriminate Hin].
    destruct (Hk ss true eq_refl Hin) as [_ Hs]. simpl. rewrite load_save. exact Hs.
  - destruct (Hk ss false eq_refl Hin) as [Hf _]. discriminate Hf.
Qed.

(** X10: processing one session makes at most one call of [killSession] or
    of the nudge, never both and never two of one kind. *)
Theorem one_kill_or_nudge_per_session opts env now s :
  (length (kills (fst (processSession opts env now s []))) +
   length (nudges (fst (processSession opts env now s []))) <= 1)%nat.
Proof. apply (processSession_calls opts env now s). Qed.

(** X11: a tick over a missing registry file, or over one holding a JSON
    value that is not an array, makes no call and leaves the file as it is
    (it does not create it); over a file [JSON.parse] rejects, the tick
    rejects before any call; over an array it is the tick over its
    records. *)
Theorem tick_registry_file_branches opts env now :
  runDaemonTickFile opts env now FileMissing = mkTickFile [] true FileMissing /\
  runDaemonTickFile opts env now FileNotArray = mkTickFile [] true FileNotArray /\
  runDaemonTickFile opts env now FileUnparsable = mkTickFile [] false FileUnparsable /\
  (forall d, runDaemonTickFile opts env now (FileArray d) =
     mkTickFile (tick_trace (runDaemonTick opts env now d))
                (tick_completed (runDaemonTick opts env now d))
                (FileArray (tick_disk (runDaemonTick opts env now d)))).
Proof.
  split; [reflexivity |]. split; [reflexivity |]. split; [reflexivity |].
  intros d. unfold runDaemonTickFile, runDaemonTick. simpl.
  destruct (processAll opts env now (loadSessions d) []) as [tr [[ss [|]]|]];
    reflexivity.
Qed.

(** X12: a registry written by [saveSessions] loads back as exactly the
    records written: the backfill of [loadSessions] never overrides a
    stored escalation level or [stalledSince], [null] included. *)
Theorem registry_file_roundtrip ss :
  loadSessionsFile (saveSessionsFile ss) = Some ss.
Proof.
  unfold loadSessionsFile, saveSessionsFile, loadSessions, saveSessions.
  f_equal. rewrite map_map. erewrite map_ext by apply backfill_toRaw. apply map_id.
Qed.

(** ** Witnesses: the theorems above at concrete inputs *)

Lemma completed_session_untouched_witness :
  state sess_done = completed /\
  processSession opts_scenario env_alive t_now sess_done [] = ([], Some (sess_done, false)).
Proof.
  split; [reflexivity |].
  apply completed_session_untouched. reflexivity.
Defined.

Lemma terminate_verdict_outcome_witness :
  state sess_silent <> completed /\
  isSessionAlive env_alive (tmuxSession sess_silent) = Some true /\
  hc_action (evaluateHealth opts_scenario t_now sess_silent true) = ActTerminate /\
  processSession opts_scenario env_alive t_now sess_silent [] =
    ([EvProbe (tmuxSession sess_silent);
      EvObserve (evaluateHealth opts_scenario t_now sess_silent true);
      EvKill (tmuxSession sess_silent)],
     Some (terminatedRecord sess_silent, true)).
Proof.
  split; [discriminate |]. split; [reflexivity |]. split; [reflexivity |].
  rewrite (terminate_verdict_outcome opts_scenario env_alive t_now sess_silent true []);
    [reflexivity | discriminate | reflexivity | reflexivity].
Defined.

Lemma escalate_terminal_level_outcome_witness :
  state sess_level2 <> completed /\
  isSessionAlive env_triage_terminate (tmuxSession sess_level2) = Some true /\
  hc_action (evaluateHealth opts_tier1 t_now sess_level2 true) = ActEscalate /\
  escalationLevel (fst (stallPrelude opts_tier1 t_now (sess_level2, false))) = 2 /\
  processSession opts_tier1 env_triage_terminate t_now sess_level2 [] =
    ([EvProbe (tmuxSession sess_level2);
      EvTriage (agentName sess_level2) (root opts_tier1) (lastActivity sess_level2);
      EvKill (tmuxSession sess_level2)],
     Some (terminatedRecord sess_level2, true)).
Proof.
  split; [discriminate |]. split; [reflexivity |]. split; [reflexivity |].
  split; [reflexivity |].
  rewrite (escalate_terminal_level_outcome opts_tier1 env_triage_terminate t_now
             sess_level2 true []);
    [reflexivity | discriminate | reflexivity | reflexivity |].
  right. split; [reflexivity | split; reflexivity].
Defined.

Lemma tick_preserves_escalation_coupling_witness :
  Forall (fun r => escInv (backfill r)) [toRaw sess_scenarioA] /\
  Forall (fun r => escInv (backfill r))
    (tick_disk (runDaemonTick opts_scenario env_alive t_now [toRaw sess_scenarioA])).
Proof.
  assert (H : Forall (fun r => escInv (backfill r)) [toRaw sess_scenarioA])
    by (repeat constructor).
  split; [exact H |].
  apply tick_preserves_escalation_coupling. exact H.
Defined.

Lemma escalation_level_tracks_elapsed_time_witness :
  0 < nudgeInterval opts_scenario /\
  stalledSince sess_scenarioA = None /\
  Sorted Z.le [t_now; t_now + 30000; t_now + 125000; t_now + 400000] /\
  stallLevels opts_scenario sess_scenarioA
    [t_now; t_now + 30000; t_now + 125000; t_now + 400000] =
    [(0, Some t_now); (0, Some t_now); (2, Some t_now); (3, Some t_now)].
Proof.
  assert (Hs : Sorted Z.le [t_now; t_now + 30000; t_now + 125000; t_now + 400000])
    by (unfold t_now; repeat constructor; lia).
  split; [vm_compute; reflexivity |]. split; [reflexivity |]. split; [exact Hs |].
  destruct (escalation_level_tracks_elapsed_time opts_scenario sess_scenarioA t_now
              [t_now + 30000; t_now + 125000; t_now + 400000])
    as [Heq _]; [vm_compute; reflexivity | reflexivity | exact Hs |].
  rewrite Heq. vm_compute. reflexivity.
Defined.

Lemma tick_exception_discards_mutations_witness :
  tick_completed (runDaemonTick opts_tier1 env_triage_throws t_now
                    [toRaw sess_level2; toRaw sess_silent]) = false /\
  tick_disk (runDaemonTick opts_tier1 env_triage_throws t_now
               [toRaw sess_level2; toRaw sess_silent]) = [toRaw sess_level2; toRaw sess_silent] /\
  wrote (runDaemonTick opts_tier1 env_triage_throws t_now
           [toRaw sess_level2; toRaw sess_silent]) = false.
Proof.
  assert (H : tick_completed (runDaemonTick opts_tier1 env_triage_throws t_now
                                [toRaw sess_level2; toRaw sess_silent]) = false)
    by (vm_compute; reflexivity).
  split; [exact H |]. apply tick_exception_discards_mutations. exact H.
Defined.

Lemma legacy_backfill_no_write_witness :
  wrote (runDaemonTick opts_scenario env_alive t_now [raw_legacy]) = false /\
  tick_disk (runDaemonTick opts_scenario env_alive t_now [raw_legacy]) = [raw_legacy].
Proof.
  assert (H : wrote (runDaemonTick opts_scenario env_alive t_now [raw_legacy]) = false)
    by (vm_compute; reflexivity).
  split; [exact H |].
  apply (proj2 (legacy_backfill_no_write opts_scenario env_alive t_now [raw_legacy])).
  exact H.
Defined.

Lemma observer_once_per_live_session_witness :
  onHealthCheck opts_scenario = Some (fun _ => false) /\
  tick_completed (runDaemonTick opts_scenario env_alive t_now
                    [toRaw sess_scenarioA; toRaw sess_done; toRaw sess_silent]) = true /\
  observed (tick_trace (runDaemonTick opts_scenario env_alive t_now
                          [toRaw sess_scenarioA; toRaw sess_done; toRaw sess_silent])) =
    [evaluateHealth opts_scenario t_now sess_scenarioA true;
     evaluateHealth opts_scenario t_now sess_silent true].
Proof.
  assert (Hc : tick_completed (runDaemonTick opts_scenario env_alive t_now
                 [toRaw sess_scenarioA; toRaw sess_done; toRaw sess_silent]) = true)
    by (vm_compute; reflexivity).
  split; [reflexivity |]. split; [exact Hc |].
  rewrite (observer_once_per_live_session opts_scenario env_alive t_now _
             (fun _ => false) eq_refl Hc).
  reflexivity.
Defined.


Open Scope string_scope.

Ltac in_tac := vm_compute; repeat (first [left; reflexivity | right]).

Lemma tick_kills_only_live_sessions_witness :
  In (EvKill "overstory-builder-2")
     (tick_trace (runDaemonTick opts_scenario env_alive t_now [toRaw sess_silent])) /\
  isSessionAlive env_alive "overstory-builder-2" = Some true.
Proof.
  assert (H : In (EvKill "overstory-builder-2")
     (tick_trace (runDaemonTick opts_scenario env_alive t_now [toRaw sess_silent])))
    by in_tac.
  split; [exact H |].
  exact (proj1 (tick_kills_only_live_sessions opts_scenario env_alive t_now _ _ H)).
Defined.

Lemma tick_nudges_forced_to_root_witness :
  In (EvNudge "/repo" "builder-3" (StallNotice "builder-3") true)
     (tick_trace (runDaemonTick opts_scenario env_alive t_now [toRaw sess_level1])) /\
  "/repo" = root opts_scenario.
Proof.
  assert (H : In (EvNudge "/repo" "builder-3" (StallNotice "builder-3") true)
     (tick_trace (runDaemonTick opts_scenario env_alive t_now [toRaw sess_level1])))
    by in_tac.
  split; [exact H |].
  exact (proj1 (tick_nudges_forced_to_root opts_scenario env_alive t_now _ _ _ _ _ H)).
Defined.

Lemma tick_triage_only_when_enabled_witness :
  In (EvTriage "builder-1" "/repo" (t_now - 100000))
     (tick_trace (runDaemonTick opts_tier1 env_alive t_now [toRaw sess_level2])) /\
  tier1 opts_tier1 = true.
Proof.
  assert (H : In (EvTriage "builder-1" "/repo" (t_now - 100000))
     (tick_trace (runDaemonTick opts_tier1 env_alive t_now [toRaw sess_level2])))
    by in_tac.
  split; [exact H |].
  exact (proj1 (tick_triage_only_when_enabled opts_tier1 env_alive t_now _ _ _ _ H)).
Defined.

Lemma tick_keeps_level_in_range_witness :
  Forall (fun s => 0 <= escalationLevel s <= 3)
    (loadSessions (tick_disk (runDaemonTick opts_scenario env_alive t_now
                    [toRaw sess_level1; toRaw sess_silent]))).
Proof.
  apply tick_keeps_level_in_range.
  repeat constructor; simpl; vm_compute; discriminate.
Defined.

Lemma tick_all_completed_noop_witness :
  runDaemonTick opts_scenario env_alive t_now [toRaw sess_done] =
    mkTick [] true [toRaw sess_done].
Proof.
  apply tick_all_completed_noop. repeat constructor.
Defined.

Lemma tick_killed_session_stored_terminated_witness :
  exists s, In s (loadSessions [toRaw sess_silent]) /\
    tmuxSession s = "overstory-builder-2" /\
    In (terminatedRecord s)
       (loadSessions (tick_disk (runDaemonTick opts_scenario env_alive t_now
                                   [toRaw sess_silent]))).
Proof.
  apply tick_killed_session_stored_terminated; [vm_compute; reflexivity | in_tac].
Defined.

Lemma exec_terminates_iff_witness :
  snd (executeEscalationAction opts_scenario env_alive sess_negative true []) =
    Some (mkResult true true) /\
  escalationLevel sess_negative <> 0 /\ escalationLevel sess_negative <> 1.
Proof.
  assert (H : snd (executeEscalationAction opts_scenario env_alive sess_negative true []) =
                Some (mkResult true true)) by reflexivity.
  split; [exact H |].
  destruct (proj1 (proj2 (exec_terminates_iff opts_scenario env_alive sess_negative
                            true [] _ H)) eq_refl) as (H0 & H1 & _).
  split; assumption.
Defined.

Close Scope string_scope.
